(** * Threat Bus: routing, subscription management and the Zeek translator

    A shallow embedding of
      - plugins/apps/threatbus_zeek/threatbus_zeek/message_mapping.py
      - plugins/apps/threatbus_zeek/plugin.py
      - plugins/backbones/threatbus-inmem/threatbus_inmem.py
      - plugins/backbones/threatbus_rabbitmq/plugin.py
    and the properties of the specification that concern them.

    Conventions.
    - A Python [str] is a [string]; one [ascii] stands for one code point
      below 256.
    - A call that may raise returns a [result]; a function that also logs,
      publishes or enqueues returns the list of its effects, in program
      order, next to the result ([run]).
    - A [dict] is a [gmap], a [set] a [gset].  A [JoinableQueue] object is
      named by a number; two names are the same object iff they are equal.
      Iterating a [gmap] or [gset] visits every element once, in an order
      that need not be Python's; no statement below depends on that order. *)

From Stdlib Require Import ZArith Ascii String List Bool Lia.
From stdpp Require Import base option list gmap sets strings.

Local Open Scope Z_scope.

(** ** Exceptions and effects *)

Inductive exn : Set :=
| ValueError | IndexError | KeyError | AttributeError | TypeError | ParseException.

Inductive result (A : Type) : Type :=
| Ok (a : A)
| Raise (e : exn).
Arguments Ok {A} a.
Arguments Raise {A} e.

(** [run E A]: the effects of kind [E] performed so far, and how the call
    ended. *)
Definition run (E A : Type) : Type := (list E * result A)%type.

Definition ret {E A} (a : A) : run E A := ([], Ok a).
Definition throw {E A} (e : exn) : run E A := ([], Raise e).
Definition emit {E} (e : E) : run E unit := ([e], Ok tt).
Definition lift {E A} (r : result A) : run E A := ([], r).
Definition bind {E A B} (m : run E A) (k : A → run E B) : run E B :=
  match m with
  | (tr, Ok a) => let '(tr', r) := k a in (tr ++ tr', r)
  | (tr, Raise e) => (tr, Raise e)
  end.

#[export] Instance run_mret {E} : MRet (run E) := λ A, @ret E A.
#[export] Instance run_mbind {E} : MBind (run E) := λ A B k m, bind m k.

(** ** Python string primitives *)

Module Py.

(** [len(s)] *)
Definition len (s : string) : Z := Z.of_nat (String.length s).

(** An index of a slice, as CPython normalises it for a sequence of length
    [n]: a negative index counts from the end, and the result is clipped
    to [0..n]. *)
Definition clip (n i : Z) : Z :=
  if i <? 0 then Z.max 0 (i + n) else Z.min i n.

(** [s[start:stop]]; [None] stands for an omitted bound. *)
Definition slice (s : string) (start stop : option Z) : string :=
  let n := len s in
  let lo := match start with Some i => clip n i | None => 0 end in
  let hi := match stop with Some j => clip n j | None => n end in
  String.substring (Z.to_nat lo) (Z.to_nat (hi - lo)) s.

(** [s.startswith(p)] *)
Definition startswith (s p : string) : bool := String.prefix p s.

(** [s.endswith(p)] *)
Definition endswith (s p : string) : bool :=
  let n := String.length s in
  let m := String.length p in
  (m <=? n)%nat &&
  String.eqb (String.substring (n - m) m s) p.

(** [s.split(sep)] for a separator of one character: the pieces between
    the occurrences of [sep], empty pieces included. *)
Fixpoint split (sep : ascii) (s : string) : list string :=
  match s with
  | EmptyString => [EmptyString]
  | String c r =>
      if Ascii.eqb c sep then EmptyString :: split sep r
      else match split sep r with
           | h :: t => String c h :: t
           | [] => [String c EmptyString]
           end
  end.

(** [str.isspace] on one code point below 256. *)
Definition isspace (c : ascii) : bool :=
  let n := nat_of_ascii c in
  ((9 <=? n) && (n <=? 13) || (28 <=? n) && (n <=? 32)
   || (n =? 133) || (n =? 160))%nat.

Fixpoint lstrip (s : string) : string :=
  match s with
  | EmptyString => EmptyString
  | String c r => if isspace c then lstrip r else s
  end.

Fixpoint rstrip (s : string) : string :=
  match s with
  | EmptyString => EmptyString
  | String c r =>
      match rstrip r with
      | EmptyString => if isspace c then EmptyString else String c EmptyString
      | r' => String c r'
      end
  end.

(** [s.strip()] *)
Definition strip (s : string) : string := rstrip (lstrip s).

(** [str.lower] on one code point below 256. *)
Definition lower_char (c : ascii) : ascii :=
  let n := nat_of_ascii c in
  if ((65 <=? n) && (n <=? 90)
      || (192 <=? n) && (n <=? 222) && negb (n =? 215))%nat
  then ascii_of_nat (n + 32) else c.

(** [s.lower()] *)
Fixpoint lower (s : string) : string :=
  match s with
  | EmptyString => EmptyString
  | String c r => String (lower_char c) (lower r)
  end.

(** [c in s] for one character [c] *)
Fixpoint contains (c : ascii) (s : string) : bool :=
  match s with
  | EmptyString => false
  | String d r => Ascii.eqb d c || contains c r
  end.

(** [s.count(c)] for one character [c] *)
Fixpoint count (c : ascii) (s : string) : nat :=
  match s with
  | EmptyString => O
  | String d r => if Ascii.eqb d c then S (count c r) else count c r
  end.

(** Unpacking a list into exactly two names; Python raises [ValueError]
    for any other length. *)
Definition unpack2 {A} (l : list A) : result (A * A) :=
  match l with
  | [a; b] => Ok (a, b)
  | _ => Raise ValueError
  end.

End Py.


(** ** The regular expressions of module [re] that the translator uses *)

Module Re.

Inductive regex : Set :=
| Void                       (* matches nothing *)
| Eps                        (* the empty string *)
| Chr (c : ascii)            (* one given character *)
| Dot                        (* [.]: any character but a newline *)
| Seq (r1 r2 : regex)
| Alt (r1 r2 : regex)
| Star (r : regex).

(** [r+], [r?] and a literal word. *)
Definition Plus (r : regex) : regex := Seq r (Star r).
Definition Opt (r : regex) : regex := Alt r Eps.
Fixpoint Lit (s : string) : regex :=
  match s with
  | EmptyString => Eps
  | String c r => Seq (Chr c) (Lit r)
  end.

Definition newline : ascii := ascii_of_nat 10.

(** The words of a regular expression. *)
Inductive Lang : regex → string → Prop :=
| LEps : Lang Eps EmptyString
| LChr c : Lang (Chr c) (String c EmptyString)
| LDot c : c ≠ newline → Lang Dot (String c EmptyString)
| LSeq r1 r2 s1 s2 : Lang r1 s1 → Lang r2 s2 → Lang (Seq r1 r2) (s1 +:+ s2)
| LAltL r1 r2 s : Lang r1 s → Lang (Alt r1 r2) s
| LAltR r1 r2 s : Lang r2 s → Lang (Alt r1 r2) s
| LStar0 r : Lang (Star r) EmptyString
| LStarS r s1 s2 : Lang r s1 → Lang (Star r) s2 → Lang (Star r) (s1 +:+ s2).

(** [re.match(r, s)] succeeds when [r] matches at the start of [s]. *)
Definition matches_at_start (r : regex) (s : string) : Prop :=
  ∃ p q, s = p +:+ q ∧ Lang r p.

(** Matching by derivatives. *)
Fixpoint nullable (r : regex) : bool :=
  match r with
  | Void => false
  | Eps => true
  | Chr _ => false
  | Dot => false
  | Seq r1 r2 => nullable r1 && nullable r2
  | Alt r1 r2 => nullable r1 || nullable r2
  | Star _ => true
  end.

Fixpoint deriv (c : ascii) (r : regex) : regex :=
  match r with
  | Void => Void
  | Eps => Void
  | Chr d => if Ascii.eqb c d then Eps else Void
  | Dot => if Ascii.eqb c newline then Void else Eps
  | Seq r1 r2 =>
      if nullable r1 then Alt (Seq (deriv c r1) r2) (deriv c r2)
      else Seq (deriv c r1) r2
  | Alt r1 r2 => Alt (deriv c r1) (deriv c r2)
  | Star r1 => Seq (deriv c r1) (Star r1)
  end.

(** The truth value of [re.match(r, s)]. *)
Fixpoint re_match (r : regex) (s : string) : bool :=
  nullable r ||
  match s with
  | EmptyString => false
  | String c s' => re_match (deriv c r) s'
  end.

(** The length of the longest start of [s] that [r] matches, if any. *)
Fixpoint match_end (r : regex) (s : string) : option nat :=
  match s with
  | EmptyString => if nullable r then Some 0%nat else None
  | String c s' =>
      match match_end (deriv c r) s' with
      | Some n => Some (S n)
      | None => if nullable r then Some 0%nat else None
      end
  end.

(** [re.sub("^" + r, repl, s)]: the pattern is anchored at the start of the
    string, so at most one occurrence is replaced, the one at position 0. *)
Definition sub_anchored (r : regex) (repl s : string) : string :=
  match match_end r s with
  | Some n => repl +:+ Py.slice s (Some (Z.of_nat n)) None
  | None => s
  end.

End Re.

(** ** The result monad of calls that only return or raise *)

#[export] Instance result_mret : MRet result := λ A, @Ok A.
#[export] Instance result_mbind : MBind result := λ A B k m,
  match m with
  | Ok a => k a
  | Raise e => Raise e
  end.

(** ** Messages and events *)

(** A value carried by a Broker event. *)
Inductive data : Set :=
| DNone
| DBool (b : bool)
| DCount (n : N)
| DString (s : string)
| DTimestamp (t : Z)
| DTimespan (d : Z)
| DTable (entries : list (string * string)).

(** Python's truth value of such a value ([if topic:]). *)
Definition truthy (d : data) : bool :=
  match d with
  | DNone => false
  | DBool b => b
  | DCount n => negb (N.eqb n 0)
  | DString s => negb (String.eqb s "")
  | DTimestamp _ => true
  | DTimespan d => negb (Z.eqb d 0)
  | DTable entries => negb (Nat.eqb (length entries) 0)
  end.

(** [broker.zeek.Event]: a name and the values it carries, in their
    order.  An event that the code builds from one tuple carries the
    components of that tuple. *)
Record event : Set := Event { ev_name : string; ev_args : list data }.

(** A STIX-2 Indicator, with the custom property [x_threatbus_update] when
    the object carries it. *)
Record Indicator : Set := mkIndicator {
  ind_id : string;
  ind_created : Z;
  ind_pattern : string;
  ind_x_threatbus_update : option string }.

(** A STIX-2 Sighting; [sig_context] is the custom property
    [x_threatbus_sighting_context]. *)
Record Sighting : Set := mkSighting {
  sig_created : data;
  sig_sighting_of_ref : string;
  sig_context : data }.

Record Subscription : Set := mkSubscription {
  sub_topic : data;
  sub_snapshot : data }.

Record Unsubscription : Set := mkUnsubscription { unsub_topic : data }.

(** What travels through the queues.  [MOther] is an object of any other
    class, with the name of its class and its truth value. *)
Inductive message : Set :=
| MIndicator (i : Indicator)
| MSighting (s : Sighting)
| MSnapshotRequest (id : string)
| MSnapshotEnvelope (id : string)
| MOther (class_name : string) (truth : bool).

(** [type(msg).__name__] *)
Definition type_name (m : message) : string :=
  match m with
  | MIndicator _ => "Indicator"
  | MSighting _ => "Sighting"
  | MSnapshotRequest _ => "SnapshotRequest"
  | MSnapshotEnvelope _ => "SnapshotEnvelope"
  | MOther n _ => n
  end.

(** [if msg:]; the STIX and snapshot objects are never empty. *)
Definition msg_truthy (m : message) : bool :=
  match m with
  | MOther _ b => b
  | _ => true
  end.

(** The result of the management translator, as [manage_subscription]
    receives it. *)
Inductive task : Set :=
| TSubscription (s : Subscription)
| TUnsubscription (u : Unsubscription)
| TOther (class_name : string).

Inductive level : Set := Debug | Info | Warn | Error | Critical.

(** What the modelled code does to the world around it. *)
Inductive effect : Set :=
| Log (lv : level) (text : string)
| Put (q : nat) (m : message)                 (* [q.put(m)] *)
| BasicAck (delivery_tag : N)                 (* [channel.basic_ack] *)
| EpPublish (topic : string) (ev : event)     (* [ep.publish] *)
| SubscribeCallback (topic : data) (q : nat) (snapshot : data)
| UnsubscribeCallback (topic : string) (q : nat).

(** A logger, or Python's [None] in its place. *)
Inductive logger : Set := LoggerNone | LoggerObj.

(** [logger.debug(text)] *)
Definition logger_debug (lg : logger) (text : string) : run effect unit :=
  match lg with
  | LoggerObj => emit (Log Debug text)
  | LoggerNone => throw AttributeError
  end.

(** Modelled from the spec: [threatbus.data.Operation] is not among the
    sources; the update operation is one of ADD and REMOVE. *)
Definition Operation_REMOVE : string := "REMOVE".

(** ** message_mapping.py *)

Module Mapping.

Definition zeek_intel_type_map : gmap string string :=
  list_to_map [
    ("domain-name:value", "DOMAIN");
    ("email-addr:value", "EMAIL");
    ("file:name", "FILE_NAME");
    ("file:hashes.MD5", "FILE_HASH");
    ("file:hashes.'SHA-1'", "FILE_HASH");
    ("file:hashes.'SHA-256'", "FILE_HASH");
    ("file:hashes.'SHA-512'", "FILE_HASH");
    ("file:hashes.'SHA3-256'", "FILE_HASH");
    ("file:hashes.'SHA3-512'", "FILE_HASH");
    ("file:hashes.SSDEEP", "FILE_HASH");
    ("file:hashes.TLSH", "FILE_HASH");
    ("ipv4-addr:value", "ADDR");
    ("ipv6-addr:value", "ADDR");
    ("software:name", "SOFTWARE");
    ("url:value", "URL");
    ("user:user_id", "USER_NAME");
    ("user:account_login", "USER_NAME");
    ("x509-certificate:hashes.'SHA-1'", "CERT_HASH") ].

(** One comparison as the pattern inspector reports it: the path inside
    the object, the operator, the literal as written.  It is a tuple of
    three components. *)
Definition comparison : Set := (list string * string * string)%type.
Definition comparison_len (c : comparison) : nat := 3.
Definition comparison_op (c : comparison) : string := c.1.2.

(** [pattern_data] of stix2patterns: the comparisons of each object type
    (a dict, in insertion order), the observation operators and the
    qualifiers that occur in the pattern. *)
Record pattern_data : Set := mkPatternData {
  comparisons : list (string * list comparison);
  observation_ops : list string;
  qualifiers : list string }.

(** What the inspector reports for a pattern of one observation, without
    qualifier, whose comparisons [cs] are all on one object type; for
    [[domain-name:value = 'evil.com']] it is
    [inspected "domain-name" [(["value"], "=", "'evil.com'")]]. *)
Definition inspected (object_type : string) (cs : list comparison) : pattern_data :=
  mkPatternData [(object_type, cs)] [] [].

(** [d[k]] on a dict kept in insertion order. *)
Definition dict_index {V} (d : list (string * V)) (k : string) : result V :=
  match List.find (λ kv, String.eqb kv.1 k) d with
  | Some kv => Ok kv.2
  | None => Raise KeyError
  end.

(** [l[i]] *)
Definition list_index {A} (l : list A) (i : nat) : result A :=
  match l !! i with
  | Some a => Ok a
  | None => Raise IndexError
  end.

(** [a and b], where [b] is only evaluated when [a] holds. *)
Definition and_then (a : bool) (b : result bool) : result bool :=
  if a then b else Ok false.

(** [https?://] and [.+/.+] *)
Definition scheme_re : Re.regex :=
  Re.Seq (Re.Lit "http") (Re.Seq (Re.Opt (Re.Chr "s")) (Re.Lit "://")).
Definition subnet_re : Re.regex :=
  Re.Seq (Re.Plus Re.Dot) (Re.Seq (Re.Chr "/") (Re.Plus Re.Dot)).

(** The two lines
<<
    if ioc_value.startswith("'") and ioc_value.endswith("'"):
        ioc_value = ioc_value[1:-1]
>>
    of [map_indicator_to_broker_event], as a function of [ioc_value]. *)
Definition unquote (ioc_value : string) : string :=
  if Py.startswith ioc_value "'" && Py.endswith ioc_value "'"
  then Py.slice ioc_value (Some 1) (Some (-1))
  else ioc_value.

Section Translators.

(** [Pattern(pattern_str).inspect()] of the stix2patterns library. *)
Variable Pattern_inspect : string → result pattern_data.
(** Python's [str] on a Broker value. *)
Variable py_str : data → string.
(** [Sighting(created=..., sighting_of_ref=..., custom_properties={...})]
    of the stix2 library: the constructor checks its arguments (the
    reference has to be a STIX identifier, the creation time a time) and
    raises when it rejects them. *)
Variable stix2_Sighting : data → string → data → result Sighting.

Definition strip_namespace (name module_namespace : string) : string :=
  let module_namespace :=
    if negb (String.eqb module_namespace "") then module_namespace +:+ "::"
    else "" in
  (* name[name.startswith(ns) and len(ns) :], where False counts as 0 *)
  Py.slice name
    (Some (if Py.startswith name module_namespace
           then Py.len module_namespace else 0))
    None.

Definition map_management_message
    (broker_data : event) (module_namespace : string) : option task :=
  let name := ev_name broker_data in
  let args := ev_args broker_data in
  let name := strip_namespace name module_namespace in
  if String.eqb name "subscribe" && Nat.eqb (length args) 2 then
    match args with
    | [topic; snapshot_delta] =>
        if truthy topic
        then Some (TSubscription (mkSubscription topic snapshot_delta))
        else None
    | _ => None
    end
  else if String.eqb name "unsubscribe" && Nat.eqb (length args) 1 then
    match args with
    | [topic] =>
        if truthy topic
        then Some (TUnsubscription (mkUnsubscription topic))
        else None
    | _ => None
    end
  else None.

Definition map_broker_event_to_sighting
    (broker_data : event) (module_namespace : string) (lg : logger)
    : run effect (option Sighting) :=
  let name := ev_name broker_data in
  let args := ev_args broker_data in
  let name := strip_namespace name module_namespace in
  if negb (String.eqb name "sighting") || negb (Nat.eqb (length args) 3) then
    match lg with
    | LoggerObj =>
        emit (Log Debug ("Discarding Broker event with unknown type: " +:+ name))
    | LoggerNone => mret tt
    end;;
    mret None
  else
    match args with
    | [timestamp; ioc_id; context] =>
        s ← lift (stix2_Sighting timestamp (py_str ioc_id) context);
        mret (Some s)
    | _ => mret None
    end.

Definition is_point_equality_ioc (pattern_str : string) : result bool :=
  il ← Pattern_inspect pattern_str;
  let cybox_types := (comparisons il).*1 in
  let first_comparison : result comparison :=
    t ← list_index cybox_types 0;
    cs ← dict_index (comparisons il) t;
    list_index cs 0 in
  and_then (Nat.eqb (length (observation_ops il)) 0) $
  and_then (Nat.eqb (length (qualifiers il)) 0) $
  and_then (Nat.eqb (length (comparisons il)) 1) $
  and_then (Nat.eqb (length cybox_types) 1) $
  (c ← first_comparison;
   and_then (Nat.eqb (comparison_len c) 3) $
   Ok (String.eqb (comparison_op c) "=")).

Definition map_indicator_to_broker_event
    (indicator : message) (module_namespace : string) (lg : logger)
    : run effect (option event) :=
  match indicator with
  | MIndicator ind =>
      point ← lift (is_point_equality_ioc (ind_pattern ind));
      if negb point then
        logger_debug lg
          ("Zeek only supports point-IoCs. Cannot map compound pattern to a Zeek Intel item: "
           +:+ ind_pattern ind);;
        mret None
      else
        (* pattern is in the form [file:name = 'foo'] *)
        parts ← lift (Py.unpack2
                   (Py.split "=" (Py.slice (ind_pattern ind) (Some 1) (Some (-1)))));
        let object_path := Py.strip parts.1 in
        let ioc_value := unquote (Py.strip parts.2) in
        (* get matching Zeek intel type *)
        match zeek_intel_type_map !! object_path with
        | Some zeek_type =>
            if String.eqb zeek_type "" then
              logger_debug lg
                ("No matching Zeek type found for STIX-2 indicator type '"
                 +:+ object_path +:+ "'");;
              mret None
            else
              let '(zeek_type, ioc_value) :=
                if String.eqb zeek_type "URL" then
                  (* remove leading protocol, if any *)
                  (zeek_type, Re.sub_anchored scheme_re "" ioc_value)
                else if String.eqb zeek_type "ADDR"
                        && Re.re_match subnet_re ioc_value then
                  (* elevate to subnet if possible *)
                  ("SUBNET", ioc_value)
                else (zeek_type, ioc_value) in
              let operation :=
                match ind_x_threatbus_update ind with
                | Some u => if String.eqb u Operation_REMOVE then "REMOVE" else "ADD"
                | None => "ADD"
                end in
              mret (Some (Event (module_namespace +:+ "::intel")
                            [DTimestamp (ind_created ind); DString (ind_id ind);
                             DString zeek_type; DString ioc_value;
                             DString operation]))
        | None =>
            logger_debug lg
              ("No matching Zeek type found for STIX-2 indicator type '"
               +:+ object_path +:+ "'");;
            mret None
        end
  | _ =>
      match lg with
      | LoggerObj =>
          emit (Log Debug "Discarding message, expected STIX-2 Indicator")
      | LoggerNone => mret tt
      end;;
      mret None
  end.

End Translators.

End Mapping.

(** ** The subscriber registry of the backbones *)

(** Both backbones keep [subscriptions = defaultdict(set)], from a topic to
    the queues subscribed under it, and both deliver with the same two
    loops:
<<
    for t in filter(lambda t: str(topic).startswith(str(t)), subscriptions.keys()):
        for outq in subscriptions[t]:
            outq.put(msg)
>>
    [put_to_subscribers] is that pair of loops. *)
Definition put_to_subscribers
    (topic : string) (msg : message) (subscriptions : gmap string (gset nat))
    : list effect :=
  t ← filter (λ t, Py.startswith topic t = true) (map_to_list subscriptions).*1;
  outq ← elements (subscriptions !!! t);
  [Put outq msg].

(** The messages that a run of effects puts into the queue [q], oldest
    first: what the run appends to the content of [q]. *)
Definition enqueued (q : nat) (effects : list effect) : list message :=
  omap (λ e, match e with
             | Put q' m => if decide (q' = q) then Some m else None
             | _ => None
             end) effects.

(** The canonical topic of a message in the words of the specification:
    [threatbus/intel] for an Indicator, [threatbus/sighting] for a
    Sighting, [threatbus/snapshotrequest], [threatbus/snapshotenvelope].
    The specification names no topic for other objects. *)
Definition spec_topic (m : message) : option string :=
  match m with
  | MIndicator _ => Some "threatbus/intel"
  | MSighting _ => Some "threatbus/sighting"
  | MSnapshotRequest _ => Some "threatbus/snapshotrequest"
  | MSnapshotEnvelope _ => Some "threatbus/snapshotenvelope"
  | MOther _ _ => None
  end.

(** [s.remove(q)] on a set *)
Definition set_remove (q : nat) (s : gset nat) : result (gset nat) :=
  if decide (q ∈ s) then Ok (s ∖ {[q]}) else Raise KeyError.

(** [del d[k]] on a dict *)
Definition dict_del {V} (k : string) (d : gmap string V) : result (gmap string V) :=
  match d !! k with
  | Some _ => Ok (delete k d)
  | None => Raise KeyError
  end.

(** [subscriptions[topic]] on the defaultdict: a missing topic is entered
    with the empty set. *)
Definition touch (topic : string) (subscriptions : gmap string (gset nat))
    : gmap string (gset nat) :=
  <[topic := subscriptions !!! topic]> subscriptions.

(** What one turn of the loop of [unsubscribe] leaves behind, whether or
    not the queue was in the set (used to state facts about that loop). *)
Definition discard (q : nat) (subs : gmap string (gset nat)) (topic : string)
    : gmap string (gset nat) :=
  <[topic := subs !!! topic ∖ {[q]}]> subs.

(** ** threatbus_inmem.py *)

Module Inmem.

(** The topic under which [provision] delivers a message. *)
Definition topic_of (msg : message) : string :=
  "tenzir/threatbus/" +:+ Py.lower (type_name msg).

(** One turn of the loop of [provision], for the message just taken from
    [inq]. *)
Definition provision_msg
    (msg : message) (subscriptions : gmap string (gset nat)) : list effect :=
  Log Debug "Backbone got message" ::
  put_to_subscribers (topic_of msg) msg subscriptions.

(** [provision] on the messages that arrive on [inq], in their order. *)
Definition provision
    (inq : list message) (subscriptions : gmap string (gset nat)) : list effect :=
  msg ← inq; provision_msg msg subscriptions.

Definition subscribe
    (topics : list string) (q : nat) (subscriptions : gmap string (gset nat))
    : gmap string (gset nat) :=
  foldl (λ subs topic, <[topic := subs !!! topic ∪ {[q]}]> subs)
        subscriptions topics.

Fixpoint unsubscribe
    (topics : list string) (q : nat) (subscriptions : gmap string (gset nat))
    : result (gmap string (gset nat)) :=
  match topics with
  | [] => Ok subscriptions
  | topic :: rest =>
      let subs := touch topic subscriptions in
      subs ← (if decide (q ∈ subs !!! topic)
              then s ← set_remove q (subs !!! topic); Ok (<[topic := s]> subs)
              else Ok subs);
      unsubscribe rest q subs
  end.

End Inmem.

(** ** threatbus_rabbitmq/plugin.py *)

Module Rabbitmq.

Inductive decoder : Set :=
| IntelDecoder | SightingDecoder
| SnapshotRequestDecoder | SnapshotEnvelopeDecoder.

Definition provision
    (topic : string) (msg : message) (subscriptions : gmap string (gset nat))
    : run effect unit :=
  emit (Log Debug "Relaying message from RabbitMQ");;
  (put_to_subscribers topic msg subscriptions, Ok tt).

Definition subscribe
    (topic : string) (q : nat) (subscriptions : gmap string (gset nat))
    : gmap string (gset nat) :=
  <[topic := subscriptions !!! topic ∪ {[q]}]> subscriptions.

Definition unsubscribe
    (topic : string) (q : nat) (subscriptions : gmap string (gset nat))
    : result (gmap string (gset nat)) :=
  let subs := touch topic subscriptions in
  if decide (q ∈ subs !!! topic)
  then s ← set_remove q (subs !!! topic); Ok (<[topic := s]> subs)
  else Ok subs.

Section Consumer.

(** [json.loads(msg, cls=decoder)] with the decoders of [threatbus.data];
    JSON [null] decodes to Python's [None], here
    [MOther "NoneType" false]. *)
Variable json_loads : list Byte.byte → decoder → result message.

Definition __decode (msg : list Byte.byte) (d : decoder)
    : run effect (option message) :=
  match json_loads msg d with
  | Ok m => mret (Some m)
  | Raise _ => emit (Log Error "Error decoding message");; mret None
  end.

(** The shape shared by the four consumer callbacks: decode with the
    decoder of the queue, provision under the topic of the queue,
    acknowledge. *)
Definition consumer_callback
    (d : decoder) (topic : string)
    (delivery_tag : N) (body : list Byte.byte)
    (subscriptions : gmap string (gset nat)) : run effect unit :=
  msg ← __decode body d;
  match msg with
  | Some m => if msg_truthy m then provision topic m subscriptions else mret tt
  | None => mret tt
  end;;
  emit (BasicAck delivery_tag).

Definition __provision_intel :=
  consumer_callback IntelDecoder "threatbus/intel".
Definition __provision_sighting :=
  consumer_callback SightingDecoder "threatbus/sightings".
Definition __provision_snapshot_request :=
  consumer_callback SnapshotRequestDecoder "threatbus/snapshotrequest".
Definition __provision_snapshot_envelope :=
  consumer_callback SnapshotEnvelopeDecoder "threatbus/snapshotenvelope".

End Consumer.

End Rabbitmq.

(** ** threatbus_zeek/plugin.py *)

Module Zeek.

(** The state of the plugin: the module-level dict
    [subscriptions : p2p_topic => queue], the number of [JoinableQueue]
    objects created so far (the next one gets that number as its name) and
    the number of calls of [random.choice] made so far. *)
Record state : Set := mkState {
  subscriptions : gmap string nat;
  queues_made : nat;
  draws_made : nat }.

Definition ascii_lowercase : string := "abcdefghijklmnopqrstuvwxyz".

Section Plugin.

(** The pseudo-random source: the [k]-th call of [random.choice] on a
    sequence of [n] elements picks the element at index
    [randbelow k mod n]. *)
Variable randbelow : nat → nat.

(** [random.choice(seq)], as the [k]-th call. *)
Definition random_choice (seq : string) (k : nat) : ascii :=
  match String.get (randbelow k mod String.length seq)%nat seq with
  | Some c => c
  | None => "a"%char
  end.

(** ["".join(random.choice(letters) for i in range(length))], the first
    call of [random.choice] being the [k]-th. *)
Fixpoint rand_string_from (k length : nat) : string :=
  match length with
  | O => EmptyString
  | S n => String (random_choice ascii_lowercase k) (rand_string_from (S k) n)
  end.

Definition rand_string (length : nat) (st : state) : string * state :=
  (rand_string_from (draws_made st) length,
   mkState (subscriptions st) (queues_made st) (draws_made st + length)%nat).

(** [JoinableQueue()] *)
Definition new_queue (st : state) : nat * state :=
  (queues_made st,
   mkState (subscriptions st) (S (queues_made st)) (draws_made st)).

(** A topic where the code needs a [str] (to append to it, to take its
    length): any other value makes Python raise [TypeError]. *)
Definition as_str (d : data) : result string :=
  match d with
  | DString s => Ok s
  | _ => Raise TypeError
  end.

Definition rand_suffix_length : nat := 10.

(** [manage_subscription]; the effects are those on the endpoint, the
    callbacks and the log, the result is the state in which the call
    returns. *)
Definition manage_subscription
    (module_namespace : string) (t : task) (st : state) : run effect state :=
  match t with
  | TSubscription s =>
      (* point-to-point topic and queue for that particular subscription *)
      emit (Log Info "Received subscription for topic");;
      let '(suffix, st) := rand_string rand_suffix_length st in
      topic ← lift (as_str (sub_topic s));
      let p2p_topic := topic +:+ suffix in
      let '(p2p_q, st) := new_queue st in
      let ack := Event (module_namespace +:+ "::subscription_acknowledged")
                       [DString p2p_topic] in
      emit (EpPublish "threatbus/manage" ack);;
      emit (SubscribeCallback (sub_topic s) p2p_q (sub_snapshot s));;
      mret (mkState (<[p2p_topic := p2p_q]> (subscriptions st))
                    (queues_made st) (draws_made st))
  | TUnsubscription u =>
      emit (Log Info "Received unsubscription from topic");;
      topic ← lift (as_str (unsub_topic u));
      let threatbus_topic :=
        Py.slice topic None (Some (Py.len topic - Z.of_nat rand_suffix_length)) in
      match subscriptions st !! topic with
      | Some p2p_q =>
          emit (UnsubscribeCallback threatbus_topic p2p_q);;
          subs ← lift (dict_del topic (subscriptions st));
          mret (mkState subs (queues_made st) (draws_made st))
      | None => mret st
      end
  | TOther _ =>
      emit (Log Debug "Skipping unknown management message");;
      mret st
  end.

(** One turn of the loop of [manage], for the event just received. *)
Definition manage_event
    (module_namespace : string) (broker_data : event) (st : state)
    : run effect state :=
  match Mapping.map_management_message broker_data module_namespace with
  | Some msg => manage_subscription module_namespace msg st
  | None => mret st
  end.

(** The loop of [manage] on the events that the subscriber of
    [threatbus/manage] receives, in their order.  A call that raises ends
    the loop. *)
Fixpoint manage
    (module_namespace : string) (received : list event) (st : state)
    : run effect state :=
  match received with
  | [] => mret st
  | broker_data :: rest =>
      st ← manage_event module_namespace broker_data st;
      manage module_namespace rest st
  end.

End Plugin.


Section Publish.

(** [map_to_broker] of [threatbus_zeek.message_mapping], which [publish]
    imports: the event for a message, or [None]. *)
Variable map_to_broker : message → string → option event.







End Publish.

End Zeek.

(** ** Notions used in the statements *)

(** Every queue in the map was created by the plugin, and no two
    p2p-topics hold the same queue. *)
Definition queues_fresh (st : Zeek.state) : Prop :=
  (∀ p q, Zeek.subscriptions st !! p = Some q → (q < Zeek.queues_made st)%nat)
  ∧ (∀ p1 p2 q, Zeek.subscriptions st !! p1 = Some q →
                Zeek.subscriptions st !! p2 = Some q → p1 = p2).



(** The topics of the registry that are prefixes of [topic] and hold the
    queue [q]. *)
Definition matching_topics
    (topic : string) (q : nat) (subs : gmap string (gset nat)) : gset string :=
  filter (λ t, Py.startswith topic t = true ∧ q ∈ subs !!! t) (dom subs).

(** The queues handed to the subscribe callback, in the order of the
    calls. *)
Definition subscribed_queues (effects : list effect) : list nat :=
  omap (λ e, match e with SubscribeCallback _ q _ => Some q | _ => None end)
       effects.

(** What was published on the endpoint, in the order of the calls. *)
Definition acknowledged (effects : list effect) : list (string * event) :=
  omap (λ e, match e with EpPublish t ev => Some (t, ev) | _ => None end)
       effects.

(** What an acknowledgement looks like: published on [threatbus/manage],
    named [NS::subscription_acknowledged], with one argument. *)
Definition ack_shape (ns : string) (p : string * event) : Prop :=
  p.1 = "threatbus/manage"
  ∧ ev_name p.2 = ns +:+ "::subscription_acknowledged"
  ∧ length (ev_args p.2) = 1%nat.

(** * Properties *)

(** ** Strings *)

Section StringFacts.

Implicit Types s p q r : string.

Lemma string_app_cons c p q : String c p +:+ q = String c (p +:+ q).
Proof. reflexivity. Qed.

Lemma string_app_nil_l q : "" +:+ q = q.
Proof. reflexivity. Qed.

Lemma string_length_app p q :
  String.length (p +:+ q) = (String.length p + String.length q)%nat.
Proof.
  induction p as [|c p IH]; [done|].
  rewrite string_app_cons. simpl. by rewrite IH.
Qed.

Lemma string_app_nil_r s : s +:+ "" = s.
Proof.
  induction s as [|c s IH]; [done|]. by rewrite string_app_cons, IH.
Qed.

Lemma string_app_assoc p q r : (p +:+ q) +:+ r = p +:+ (q +:+ r).
Proof.
  induction p as [|c p IH]; [done|]. by rewrite !string_app_cons, IH.
Qed.

Lemma string_app_inv_head p q r : p +:+ q = p +:+ r → q = r.
Proof.
  induction p as [|c p IH]; [done|].
  rewrite !string_app_cons. intros [= H]. auto.
Qed.

(** [startswith] is the byte-wise prefix test. *)
Lemma startswith_iff s p : Py.startswith s p = true ↔ ∃ r, s = p +:+ r.
Proof.
  unfold Py.startswith. revert s.
  induction p as [|c p IH]; intros s.
  - split; [intros _; by exists s | intros _; by destruct s].
  - destruct s as [|d s]; simpl.
    + split; [done | intros [r Hr]; discriminate].
    + destruct (ascii_dec c d) as [->|Hne].
      * rewrite IH. split; intros [r Hr]; exists r.
        -- by rewrite Hr.
        -- rewrite string_app_cons in Hr. by injection Hr.
      * split; [done | intros [r Hr]].
        rewrite string_app_cons in Hr. injection Hr. congruence.
Qed.

Lemma substring_all s : String.substring 0 (String.length s) s = s.
Proof. induction s as [|c s IH]; simpl; [done | by f_equal]. Qed.

Lemma substring_skip p q :
  String.substring (String.length p) (String.length q) (p +:+ q) = q.
Proof.
  induction p as [|c p IH]; [apply substring_all|].
  rewrite string_app_cons. simpl. done.
Qed.

Lemma slice_from_0 s : Py.slice s (Some 0) None = s.
Proof.
  unfold Py.slice, Py.clip, Py.len. simpl.
  rewrite Z.min_l by lia. rewrite Z.sub_0_r, Nat2Z.id. apply substring_all.
Qed.

(** [(p + q)[len(p):]] is [q]. *)
Lemma slice_skip p q : Py.slice (p +:+ q) (Some (Py.len p)) None = q.
Proof.
  unfold Py.slice, Py.clip, Py.len. rewrite string_length_app.
  destruct (Z.ltb_spec (Z.of_nat (String.length p)) 0) as [?|_]; [lia|].
  rewrite Z.min_l by lia. rewrite Nat2Z.id.
  replace (Z.to_nat _) with (String.length q) by lia.
  apply substring_skip.
Qed.

End StringFacts.

(** ** Regular expressions: the matcher against the language *)

Section RegexFacts.

Import Re.

Implicit Types (r : regex) (s p q : string) (c : ascii).

Lemma string_app_eq_nil p q : p +:+ q = "" → p = "" ∧ q = "".
Proof. destruct p; [done | rewrite string_app_cons; discriminate]. Qed.

Lemma Lang_Void_inv s : ¬ Lang Void s.
Proof. inversion 1. Qed.

Lemma Lang_Eps_inv s : Lang Eps s → s = "".
Proof. by inversion 1. Qed.

Lemma Lang_Chr_inv c s : Lang (Chr c) s → s = String c "".
Proof. by inversion 1. Qed.

Lemma Lang_Dot_inv s : Lang Dot s → ∃ c, s = String c "" ∧ c ≠ newline.
Proof. inversion 1; eauto. Qed.

Lemma Lang_Seq_inv r1 r2 s :
  Lang (Seq r1 r2) s → ∃ s1 s2, s = s1 +:+ s2 ∧ Lang r1 s1 ∧ Lang r2 s2.
Proof. inversion 1; eauto. Qed.

Lemma Lang_Alt_inv r1 r2 s : Lang (Alt r1 r2) s → Lang r1 s ∨ Lang r2 s.
Proof. inversion 1; auto. Qed.

(** A non-empty word of [r*] starts with a non-empty word of [r]. *)
Lemma Lang_Star_cons_inv r c s :
  Lang (Star r) (String c s) →
  ∃ s1 s2, s = s1 +:+ s2 ∧ Lang r (String c s1) ∧ Lang (Star r) s2.
Proof.
  intros H. remember (Star r) as r' eqn:Hr. remember (String c s) as w eqn:Hw.
  revert s Hw. induction H as [| | | | | | |r0 s1 s2 H1 _ H2 IH2];
    try discriminate; intros s Hw.
  injection Hr as ->. destruct s1 as [|d s1].
  - rewrite string_app_nil_l in Hw. by apply IH2.
  - rewrite string_app_cons in Hw. injection Hw as -> <-. eauto.
Qed.

Lemma nullable_iff r : nullable r = true ↔ Lang r "".
Proof.
  induction r as [| | | |r1 IH1 r2 IH2|r1 IH1 r2 IH2|r1 IH1]; simpl.
  - split; [done | by intros ?%Lang_Void_inv].
  - split; [constructor | done].
  - split; [done | by intros ?%Lang_Chr_inv].
  - split; [done | by intros (? & ? & _)%Lang_Dot_inv].
  - rewrite andb_true_iff, IH1, IH2. split.
    + intros [H1 H2]. by apply (LSeq _ _ "" "").
    + intros (s1 & s2 & Hs & H1 & H2)%Lang_Seq_inv.
      symmetry in Hs. apply string_app_eq_nil in Hs as [-> ->]. done.
  - rewrite orb_true_iff, IH1, IH2. split.
    + intros [?|?]; [by apply LAltL | by apply LAltR].
    + apply Lang_Alt_inv.
  - split; [constructor | done].
Qed.

Lemma deriv_iff c r s : Lang (deriv c r) s ↔ Lang r (String c s).
Proof.
  revert s.
  induction r as [| |d| |r1 IH1 r2 IH2|r1 IH1 r2 IH2|r1 IH1]; intros s; simpl.
  - split; inversion 1.
  - split; inversion 1.
  - destruct (Ascii.eqb_spec c d) as [->|Hne].
    + split; [intros ->%Lang_Eps_inv; constructor | by inversion 1; constructor].
    + split; [by intros ?%Lang_Void_inv | inversion 1; congruence].
  - destruct (Ascii.eqb_spec c newline) as [->|Hne].
    + split; [by intros ?%Lang_Void_inv | inversion 1; congruence].
    + split; [intros ->%Lang_Eps_inv; by constructor | by inversion 1; constructor].
  - assert (Hseq : Lang (Seq (deriv c r1) r2) s →
                   Lang (Seq r1 r2) (String c s)).
    { intros (s1 & s2 & -> & H1 & H2)%Lang_Seq_inv.
      rewrite <- string_app_cons. constructor; [by apply IH1 | done]. }
    assert (Hinv : Lang (Seq r1 r2) (String c s) →
                   Lang (Seq (deriv c r1) r2) s ∨
                   (Lang r1 "" ∧ Lang r2 (String c s))).
    { intros (s1 & s2 & Hs & H1 & H2)%Lang_Seq_inv. destruct s1 as [|d s1].
      - rewrite string_app_nil_l in Hs. subst s2. by right.
      - rewrite string_app_cons in Hs. injection Hs as <- ->. left.
        constructor; [by apply IH1 | done]. }
    destruct (nullable r1) eqn:Hn.
    + split.
      * intros [H|H]%Lang_Alt_inv; [by apply Hseq|].
        apply IH2 in H. apply nullable_iff in Hn.
        by apply (LSeq _ _ "" (String c s)).
      * intros [H|[_ H]]%Hinv; [by apply LAltL | apply LAltR; by apply IH2].
    + split; [apply Hseq|].
      intros [H|[H _]]%Hinv; [done|].
      apply nullable_iff in H. congruence.
  - split.
    + intros [H|H]%Lang_Alt_inv; [apply LAltL; by apply IH1 | apply LAltR; by apply IH2].
    + intros [H|H]%Lang_Alt_inv; [apply LAltL; by apply IH1 | apply LAltR; by apply IH2].
  - split.
    + intros (s1 & s2 & -> & H1 & H2)%Lang_Seq_inv.
      rewrite <- string_app_cons. constructor; [by apply IH1 | done].
    + intros (s1 & s2 & -> & H1 & H2)%Lang_Star_cons_inv.
      constructor; [by apply IH1 | done].
Qed.

(** [re_match] decides whether some start of the string is a word. *)
Lemma re_match_iff r s : re_match r s = true ↔ matches_at_start r s.
Proof.
  unfold matches_at_start. revert r.
  induction s as [|c s IH]; intros r; simpl.
  - rewrite orb_false_r, nullable_iff. split.
    + intros H. by exists "", "".
    + intros (p & q & Hs & H). symmetry in Hs.
      apply string_app_eq_nil in Hs as [-> ->]. done.
  - rewrite orb_true_iff, nullable_iff, IH. split.
    + intros [H|(p & q & -> & H)].
      * by exists "", (String c s).
      * exists (String c p), q. split; [done | by apply deriv_iff].
    + intros (p & q & Hs & H). destruct p as [|d p]; [by left|].
      rewrite string_app_cons in Hs. injection Hs as <- ->.
      right. exists p, q. split; [done | by apply deriv_iff].
Qed.

Lemma match_end_sound r s n :
  match_end r s = Some n →
  ∃ p q, s = p +:+ q ∧ String.length p = n ∧ Lang r p.
Proof.
  revert r n. induction s as [|c s IH]; intros r n; simpl.
  - destruct (nullable r) eqn:Hn; [|done]. intros [= <-].
    exists "", "". by rewrite <- nullable_iff.
  - destruct (match_end (deriv c r) s) as [m|] eqn:Hm.
    + intros [= <-]. destruct (IH _ _ Hm) as (p & q & -> & <- & H).
      exists (String c p), q. split; [done|]. split; [done | by apply deriv_iff].
    + destruct (nullable r) eqn:Hn; [|done]. intros [= <-].
      exists "", (String c s). by rewrite <- nullable_iff.
Qed.

Lemma match_end_none r s : match_end r s = None → ¬ matches_at_start r s.
Proof.
  revert r. induction s as [|c s IH]; intros r; simpl.
  - destruct (nullable r) eqn:Hn; [done|]. intros _ (p & q & Hs & H).
    symmetry in Hs. apply string_app_eq_nil in Hs as [-> ->].
    apply nullable_iff in H. congruence.
  - destruct (match_end (deriv c r) s) eqn:Hm; [done|].
    destruct (nullable r) eqn:Hn; [done|]. intros _ (p & q & Hs & H).
    destruct p as [|d p].
    + apply nullable_iff in H. congruence.
    + rewrite string_app_cons in Hs. injection Hs as <- ->.
      apply (IH _ Hm). exists p, q. split; [done | by apply deriv_iff].
Qed.

(** Replacing the anchored match by nothing removes a word of [r] from the
    start of [s], or leaves [s] alone when no start of [s] is a word. *)
Lemma sub_anchored_spec r s :
  (∃ p, Lang r p ∧ s = p +:+ sub_anchored r "" s) ∨
  (¬ matches_at_start r s ∧ sub_anchored r "" s = s).
Proof.
  unfold sub_anchored. destruct (match_end r s) as [n|] eqn:Hm.
  - left. destruct (match_end_sound _ _ _ Hm) as (p & q & -> & <- & H).
    exists p. split; [done|]. rewrite string_app_nil_l.
    change (Z.of_nat (String.length p)) with (Py.len p).
    by rewrite slice_skip.
  - right. split; [by apply match_end_none | done].
Qed.

End RegexFacts.

(** ** The intel translator *)

Section TranslatorFacts.

Import Mapping.

Lemma Lang_Lit w : Re.Lang (Re.Lit w) w.
Proof.
  induction w as [|c w IH]; simpl; [constructor|].
  change (String c w) with (String c "" +:+ w). by repeat constructor.
Qed.

Lemma Lang_Lit_inv w s : Re.Lang (Re.Lit w) s → s = w.
Proof.
  revert s. induction w as [|c w IH]; intros s; simpl.
  - apply Lang_Eps_inv.
  - intros (s1 & s2 & -> & ->%Lang_Chr_inv & ->%IH)%Lang_Seq_inv. done.
Qed.

(** The words of [https?://]. *)
Lemma scheme_re_words p :
  Re.Lang scheme_re p ↔ p = "http://" ∨ p = "https://".
Proof.
  unfold scheme_re. split.
  - intros (s1 & s2 & -> & ->%Lang_Lit_inv & H2)%Lang_Seq_inv.
    apply Lang_Seq_inv in H2 as (a & b & -> & Ha & ->%Lang_Lit_inv).
    apply Lang_Alt_inv in Ha as [->%Lang_Chr_inv | ->%Lang_Eps_inv]; auto.
  - intros [-> | ->].
    + apply (Re.LSeq _ _ "http" "://"); [apply Lang_Lit|].
      apply (Re.LSeq _ _ "" "://"); [apply Re.LAltR; constructor | apply Lang_Lit].
    + apply (Re.LSeq _ _ "http" "s://"); [apply Lang_Lit|].
      apply (Re.LSeq _ _ "s" "://"); [apply Re.LAltL; constructor | apply Lang_Lit].
Qed.

Lemma contains_app c (a b : string) :
  Py.contains c (a +:+ b) = Py.contains c a || Py.contains c b.
Proof.
  induction a as [|d a IH]; [done|].
  rewrite string_app_cons. cbn [Py.contains]. by rewrite IH, orb_assoc.
Qed.

(** The words of [.*] and of [.+]: those without a newline. *)
Lemma dot_star_words s :
  Re.Lang (Re.Star Re.Dot) s ↔ Py.contains Re.newline s = false.
Proof.
  split.
  - intros H. remember (Re.Star Re.Dot) as r eqn:Hr.
    induction H as [| | | | | | |r0 s1 s2 H1 _ H2 IH2]; try discriminate;
      [done|].
    injection Hr as ->. apply Lang_Dot_inv in H1 as (c & -> & Hc).
    rewrite contains_app, IH2 by done. cbn [Py.contains].
    apply Ascii.eqb_neq in Hc. by rewrite Hc.
  - induction s as [|c s IH]; [constructor|].
    cbn [Py.contains]. intros [Hc Hs]%orb_false_iff.
    change (String c s) with (String c "" +:+ s).
    constructor; [|by apply IH]. constructor. by apply Ascii.eqb_neq.
Qed.

Lemma dot_plus_words s :
  Re.Lang (Re.Plus Re.Dot) s ↔ s ≠ "" ∧ Py.contains Re.newline s = false.
Proof.
  unfold Re.Plus. split.
  - intros (s1 & s2 & -> & (c & -> & Hc)%Lang_Dot_inv & H2%dot_star_words)%Lang_Seq_inv.
    split; [done|]. rewrite contains_app, H2. cbn [Py.contains].
    apply Ascii.eqb_neq in Hc. by rewrite Hc.
  - intros [Hne Hs]. destruct s as [|c s]; [done|].
    cbn [Py.contains] in Hs. apply orb_false_iff in Hs as [Hc Hs].
    change (String c s) with (String c "" +:+ s).
    constructor; [|by apply dot_star_words]. constructor. by apply Ascii.eqb_neq.
Qed.

(** [.+/.+] matches at the start of a value exactly when the value starts
    with a non-empty piece, a slash and another non-empty piece, both
    pieces without a newline. *)
Lemma subnet_re_matches value :
  Re.matches_at_start subnet_re value ↔
  ∃ a b rest, value = a +:+ "/" +:+ b +:+ rest
              ∧ a ≠ "" ∧ Py.contains Re.newline a = false
              ∧ b ≠ "" ∧ Py.contains Re.newline b = false.
Proof.
  unfold Re.matches_at_start, subnet_re. split.
  - intros (p & rest & -> & H).
    apply Lang_Seq_inv in H as (a & p' & -> & [Ha1 Ha2]%dot_plus_words & H).
    apply Lang_Seq_inv in H as (sl & b & -> & ->%Lang_Chr_inv & [Hb1 Hb2]%dot_plus_words).
    exists a, b, rest. by rewrite !string_app_assoc.
  - intros (a & b & rest & -> & Ha1 & Ha2 & Hb1 & Hb2).
    exists (a +:+ "/" +:+ b), rest. split; [by rewrite !string_app_assoc|].
    constructor; [by apply dot_plus_words|].
    constructor; [constructor | by apply dot_plus_words].
Qed.

(** What [re.sub(r"^https?://", "", value)] returns. *)
Lemma strip_scheme_spec value :
  let w := Re.sub_anchored scheme_re "" value in
  value = "http://" +:+ w ∨ value = "https://" +:+ w ∨
  (w = value ∧ Py.startswith value "http://" = false
             ∧ Py.startswith value "https://" = false).
Proof.
  intros w. destruct (sub_anchored_spec scheme_re value) as [(p & Hp & Hv)|[Hno Hw]].
  - apply scheme_re_words in Hp as [-> | ->]; auto.
  - right; right. split; [done|].
    split; apply not_true_is_false; intros [r Hr]%startswith_iff;
      apply Hno; eexists _, r; (split; [exact Hr|]);
      apply scheme_re_words; auto.
Qed.

Lemma lift_ok_bind {E A B} (a : A) (k : A → run E B) :
  (lift (Ok a) ≫= k) = k a.
Proof. unfold mbind, run_mbind, bind, lift. by destruct (k a). Qed.

Lemma lift_raise_bind {E A B} (e : exn) (k : A → run E B) :
  (lift (Raise e) ≫= k) = ([], Raise e).
Proof. reflexivity. Qed.

Variable Pattern_inspect : string → result pattern_data.

(** A pattern that has passed the check and does not split in two at [=]
    makes the translator raise. *)
Lemma map_indicator_unpack_fails ind ns lg e :
  is_point_equality_ioc Pattern_inspect (ind_pattern ind) = Ok true →
  Py.unpack2 (Py.split "=" (Py.slice (ind_pattern ind) (Some 1) (Some (-1))))
    = Raise e →
  map_indicator_to_broker_event Pattern_inspect (MIndicator ind) ns lg
  = ([], Raise e).
Proof.
  intros Hpoint Hsplit.
  unfold map_indicator_to_broker_event. rewrite Hpoint.
  rewrite lift_ok_bind. cbn [negb]. rewrite Hsplit.
  apply lift_raise_bind.
Qed.

(** The event the translator builds once the pattern has passed the check
    and has split into an object path and a value at its one [=]. *)
Lemma map_indicator_point ind ns lg p v zeek_type :
  is_point_equality_ioc Pattern_inspect (ind_pattern ind) = Ok true →
  Py.split "=" (Py.slice (ind_pattern ind) (Some 1) (Some (-1))) = [p; v] →
  zeek_intel_type_map !! Py.strip p = Some zeek_type →
  zeek_type ≠ "" →
  map_indicator_to_broker_event Pattern_inspect (MIndicator ind) ns lg =
  ([], Ok (Some (Event (ns +:+ "::intel")
     [DTimestamp (ind_created ind); DString (ind_id ind);
      DString (if String.eqb zeek_type "URL" then zeek_type
               else if String.eqb zeek_type "ADDR"
                       && Re.re_match subnet_re (unquote (Py.strip v))
               then "SUBNET" else zeek_type);
      DString (if String.eqb zeek_type "URL"
               then Re.sub_anchored scheme_re "" (unquote (Py.strip v))
               else unquote (Py.strip v));
      DString (match ind_x_threatbus_update ind with
               | Some u => if String.eqb u Operation_REMOVE
                           then "REMOVE" else "ADD"
               | None => "ADD"
               end)]))).
Proof.
  intros Hpoint Hsplit Hmap Hne.
  unfold map_indicator_to_broker_event. rewrite Hpoint.
  rewrite lift_ok_bind. cbn [negb]. rewrite Hsplit. cbn [Py.unpack2].
  rewrite lift_ok_bind. cbn [fst snd]. rewrite Hmap.
  apply String.eqb_neq in Hne. rewrite Hne.
  destruct (String.eqb zeek_type "URL"); [done|].
  by destruct (String.eqb zeek_type "ADDR" && _).
Qed.

End TranslatorFacts.

(** ** Claims about the intel translator *)

Section TranslatorClaims.

Import Mapping.

(** C2 (the code departs from the claim).  The translator is not total: an
    Indicator whose pattern passes the point-equality check and whose value
    holds an [=] makes the unpacking of [split("=")] raise [ValueError]. *)
Theorem C2_equals_sign_in_value_raises
    (Pattern_inspect : string → result pattern_data) ns lg id created upd :
  Pattern_inspect "[url:value = 'http://evil.example/?q=1']"
    = Ok (inspected "url" [(["value"], "=", "'http://evil.example/?q=1'")]) →
  is_point_equality_ioc Pattern_inspect
    "[url:value = 'http://evil.example/?q=1']" = Ok true ∧
  map_indicator_to_broker_event Pattern_inspect
    (MIndicator (mkIndicator id created
                   "[url:value = 'http://evil.example/?q=1']" upd)) ns lg
  = ([], Raise ValueError).
Proof.
  intros H.
  assert (Hpoint : is_point_equality_ioc Pattern_inspect
            "[url:value = 'http://evil.example/?q=1']" = Ok true).
  { unfold is_point_equality_ioc. by rewrite H. }
  split; [done|].
  apply map_indicator_unpack_fails; [done | by vm_compute].
Qed.

Lemma C2_equals_sign_in_value_raises_witness :
  map_indicator_to_broker_event
    (λ _, Ok (inspected "url" [(["value"], "=", "'http://evil.example/?q=1'")]))
    (MIndicator (mkIndicator "indicator--1" 0
                   "[url:value = 'http://evil.example/?q=1']" None))
    "Tb" LoggerObj
  = ([], Raise ValueError).
Proof.
  exact (proj2 (C2_equals_sign_in_value_raises
                  (λ _, Ok (inspected "url"
                     [(["value"], "=", "'http://evil.example/?q=1'")]))
                  "Tb" LoggerObj "indicator--1" 0 None eq_refl)).
Defined.

(** C3 (the code departs from the claim).  The check looks only at the
    first comparison of the one object type, so a pattern of two
    comparisons on that type passes it.  With two equality comparisons the
    translator then raises [ValueError]; with an equality followed by
    another comparison it produces an event whose value is the rest of the
    pattern. *)
Theorem C3_compound_pattern_passes_the_check
    (Pattern_inspect : string → result pattern_data) ns lg id created :
  Pattern_inspect "[ipv4-addr:value = '1.2.3.4' AND ipv4-addr:value = '5.6.7.8']"
    = Ok (inspected "ipv4-addr" [(["value"], "=", "'1.2.3.4'");
                                 (["value"], "=", "'5.6.7.8'")]) →
  Pattern_inspect "[file:name = 'a' AND file:size > 5]"
    = Ok (inspected "file" [(["name"], "=", "'a'"); (["size"], ">", "5")]) →
  map_indicator_to_broker_event Pattern_inspect
    (MIndicator (mkIndicator id created
       "[ipv4-addr:value = '1.2.3.4' AND ipv4-addr:value = '5.6.7.8']" None))
    ns lg
  = ([], Raise ValueError)
  ∧
  map_indicator_to_broker_event Pattern_inspect
    (MIndicator (mkIndicator id created
       "[file:name = 'a' AND file:size > 5]" None))
    ns lg
  = ([], Ok (Some (Event (ns +:+ "::intel")
       [DTimestamp created; DString id; DString "FILE_NAME";
        DString "'a' AND file:size > 5"; DString "ADD"]))).
Proof.
  intros H1 H2. split.
  - apply map_indicator_unpack_fails; [| by vm_compute].
    unfold is_point_equality_ioc. cbn [ind_pattern]. by rewrite H1.
  - rewrite (map_indicator_point Pattern_inspect
               (mkIndicator id created "[file:name = 'a' AND file:size > 5]" None)
               ns lg "file:name " " 'a' AND file:size > 5" "FILE_NAME");
      [by vm_compute | | by vm_compute | by vm_compute | done].
    unfold is_point_equality_ioc. cbn [ind_pattern]. by rewrite H2.
Qed.

Lemma C3_compound_pattern_passes_the_check_witness :
  map_indicator_to_broker_event
    (λ s, if String.eqb s "[file:name = 'a' AND file:size > 5]"
          then Ok (inspected "file" [(["name"], "=", "'a'"); (["size"], ">", "5")])
          else Ok (inspected "ipv4-addr" [(["value"], "=", "'1.2.3.4'");
                                          (["value"], "=", "'5.6.7.8'")]))
    (MIndicator (mkIndicator "indicator--1" 0
       "[file:name = 'a' AND file:size > 5]" None))
    "Tb" LoggerObj
  = ([], Ok (Some (Event "Tb::intel"
       [DTimestamp 0; DString "indicator--1"; DString "FILE_NAME";
        DString "'a' AND file:size > 5"; DString "ADD"]))).
Proof.
  exact (proj2 (C3_compound_pattern_passes_the_check
    (λ s, if String.eqb s "[file:name = 'a' AND file:size > 5]"
          then Ok (inspected "file" [(["name"], "=", "'a'"); (["size"], ">", "5")])
          else Ok (inspected "ipv4-addr" [(["value"], "=", "'1.2.3.4'");
                                          (["value"], "=", "'5.6.7.8'")]))
    "Tb" LoggerObj "indicator--1" 0 eq_refl eq_refl)).
Defined.

(** Where the unpacking succeeds: when the pattern has passed the
    point-equality check and has split at its one [=] into an object path
    that the table maps to URL and a value, the translator emits the value
    without one leading [http://] or [https://], and otherwise unchanged:
    the emitted value [w] is what follows that scheme, or it is the whole
    value when the value starts with neither.  The pattern
    [[url:value = 'https://evil.example/']] gives tag URL and value
    [evil.example/]. *)
Lemma url_value_loses_one_leading_scheme :
  (∀ (Pattern_inspect : string → result pattern_data) ind ns lg p v,
     is_point_equality_ioc Pattern_inspect (ind_pattern ind) = Ok true →
     Py.split "=" (Py.slice (ind_pattern ind) (Some 1) (Some (-1))) = [p; v] →
     zeek_intel_type_map !! Py.strip p = Some "URL" →
     ∃ w op,
       map_indicator_to_broker_event Pattern_inspect (MIndicator ind) ns lg
       = ([], Ok (Some (Event (ns +:+ "::intel")
            [DTimestamp (ind_created ind); DString (ind_id ind);
             DString "URL"; DString w; DString op])))
       ∧ (unquote (Py.strip v) = "http://" +:+ w
          ∨ unquote (Py.strip v) = "https://" +:+ w
          ∨ (w = unquote (Py.strip v)
             ∧ Py.startswith w "http://" = false
             ∧ Py.startswith w "https://" = false)))
  ∧
  (∀ (Pattern_inspect : string → result pattern_data) ns lg id created upd,
     Pattern_inspect "[url:value = 'https://evil.example/']"
       = Ok (inspected "url" [(["value"], "=", "'https://evil.example/'")]) →
     ∃ op,
       map_indicator_to_broker_event Pattern_inspect
         (MIndicator (mkIndicator id created
                        "[url:value = 'https://evil.example/']" upd)) ns lg
       = ([], Ok (Some (Event (ns +:+ "::intel")
            [DTimestamp created; DString id;
             DString "URL"; DString "evil.example/"; DString op])))).
Proof.
  split.
  - intros PI ind ns lg p v Hpoint Hsplit Hmap.
    pose proof (map_indicator_point PI ind ns lg p v "URL" Hpoint Hsplit Hmap)
      as Hev.
    change (String.eqb "URL" "URL") with true in Hev. cbv iota in Hev.
    eexists _, _. split; [by apply Hev|].
    destruct (strip_scheme_spec (unquote (Py.strip v))) as [H|[H|(H1 & H2 & H3)]];
      [by left | by right; left | right; right].
    rewrite H1. auto.
  - intros PI ns lg id created upd H.
    eexists.
    rewrite (map_indicator_point PI
               (mkIndicator id created "[url:value = 'https://evil.example/']" upd)
               ns lg "url:value " " 'https://evil.example/'" "URL");
      [by vm_compute | | by vm_compute | by vm_compute | done].
    unfold is_point_equality_ioc. cbn [ind_pattern]. by rewrite H.
Qed.

(** Where the unpacking succeeds: when the pattern has passed the
    point-equality check and has split at its one [=] into an object path
    that the table maps to ADDR and a value, the translator emits that value with tag SUBNET if the regular
    expression [.+/.+] matches at the start of the value (Python's
    [re.match]), and with tag ADDR if it does not.  The pattern
    [[ipv4-addr:value = '10.0.0.0/8']] gives tag SUBNET.  The expression
    matches at the start of a value exactly when the value starts with a
    non-empty piece, a slash and another non-empty piece, both without a
    newline. *)
Lemma addr_with_slash_becomes_subnet :
  (∀ (Pattern_inspect : string → result pattern_data) ind ns lg p v,
     is_point_equality_ioc Pattern_inspect (ind_pattern ind) = Ok true →
     Py.split "=" (Py.slice (ind_pattern ind) (Some 1) (Some (-1))) = [p; v] →
     zeek_intel_type_map !! Py.strip p = Some "ADDR" →
     ∃ tag op,
       map_indicator_to_broker_event Pattern_inspect (MIndicator ind) ns lg
       = ([], Ok (Some (Event (ns +:+ "::intel")
            [DTimestamp (ind_created ind); DString (ind_id ind);
             DString tag; DString (unquote (Py.strip v)); DString op])))
       ∧ (Re.matches_at_start subnet_re (unquote (Py.strip v)) → tag = "SUBNET")
       ∧ (¬ Re.matches_at_start subnet_re (unquote (Py.strip v)) → tag = "ADDR"))
  ∧
  (∀ (Pattern_inspect : string → result pattern_data) ns lg id created upd,
     Pattern_inspect "[ipv4-addr:value = '10.0.0.0/8']"
       = Ok (inspected "ipv4-addr" [(["value"], "=", "'10.0.0.0/8'")]) →
     ∃ op,
       map_indicator_to_broker_event Pattern_inspect
         (MIndicator (mkIndicator id created
                        "[ipv4-addr:value = '10.0.0.0/8']" upd)) ns lg
       = ([], Ok (Some (Event (ns +:+ "::intel")
            [DTimestamp created; DString id;
             DString "SUBNET"; DString "10.0.0.0/8"; DString op]))))
  ∧
  (∀ value,
     Re.matches_at_start subnet_re value ↔
     ∃ a b rest, value = a +:+ "/" +:+ b +:+ rest
                 ∧ a ≠ "" ∧ Py.contains Re.newline a = false
                 ∧ b ≠ "" ∧ Py.contains Re.newline b = false).
Proof.
  split; [|split; [|apply subnet_re_matches]].
  - intros PI ind ns lg p v Hpoint Hsplit Hmap.
    pose proof (map_indicator_point PI ind ns lg p v "ADDR" Hpoint Hsplit Hmap)
      as Hev.
    change (String.eqb "ADDR" "URL") with false in Hev.
    change (String.eqb "ADDR" "ADDR") with true in Hev.
    cbv iota in Hev. rewrite andb_true_l in Hev.
    eexists _, _. split; [by apply Hev|].
    destruct (Re.re_match subnet_re (unquote (Py.strip v))) eqn:Hm.
    + split; [reflexivity|]. intros Hno. apply re_match_iff in Hm. contradiction.
    + split; [|reflexivity]. intros Hyes%re_match_iff. congruence.
  - intros PI ns lg id created upd H.
    eexists.
    rewrite (map_indicator_point PI
               (mkIndicator id created "[ipv4-addr:value = '10.0.0.0/8']" upd)
               ns lg "ipv4-addr:value " " '10.0.0.0/8'" "ADDR");
      [by vm_compute | | by vm_compute | by vm_compute | done].
    unfold is_point_equality_ioc. cbn [ind_pattern]. by rewrite H.
Qed.

(** C7 (the code departs from the claim).  The translator does not remove
    the scheme from the value of every point-equality Indicator with a URL
    path: for a URL that holds an [=], as one with a query string does, the
    pattern passes the point-equality check, its object path is one that
    the table maps to URL and its value starts with [https://], but the
    unpacking of [split("=")] raises [ValueError] before the value is
    looked at, and no event is produced. *)
Theorem C7_url_holding_equals_sign_raises
    (Pattern_inspect : string → result pattern_data) ns lg id created upd :
  Pattern_inspect "[url:value = 'https://evil.example/?id=1']"
    = Ok (inspected "url" [(["value"], "=", "'https://evil.example/?id=1'")]) →
  is_point_equality_ioc Pattern_inspect
    "[url:value = 'https://evil.example/?id=1']" = Ok true
  ∧ zeek_intel_type_map !! "url:value" = Some "URL"
  ∧ Py.startswith "https://evil.example/?id=1" "https://" = true
  ∧ map_indicator_to_broker_event Pattern_inspect
      (MIndicator (mkIndicator id created
                     "[url:value = 'https://evil.example/?id=1']" upd)) ns lg
    = ([], Raise ValueError).
Proof.
  intros H.
  assert (Hpoint : is_point_equality_ioc Pattern_inspect
            "[url:value = 'https://evil.example/?id=1']" = Ok true).
  { unfold is_point_equality_ioc. by rewrite H. }
  split_and!; [done | by vm_compute | by vm_compute |].
  apply map_indicator_unpack_fails; [done | by vm_compute].
Qed.

Lemma C7_url_holding_equals_sign_raises_witness :
  map_indicator_to_broker_event
    (λ _, Ok (inspected "url" [(["value"], "=", "'https://evil.example/?id=1'")]))
    (MIndicator (mkIndicator "indicator--1" 0
                   "[url:value = 'https://evil.example/?id=1']" None))
    "Tb" LoggerObj
  = ([], Raise ValueError).
Proof.
  exact (proj2 (proj2 (proj2 (C7_url_holding_equals_sign_raises
                  (λ _, Ok (inspected "url"
                     [(["value"], "=", "'https://evil.example/?id=1'")]))
                  "Tb" LoggerObj "indicator--1" 0 None eq_refl)))).
Defined.

(** C8 (the code departs from the claim).  The translator does not emit a
    tag for every point-equality Indicator with an ADDR path: for a value
    that holds an [=], the pattern passes the point-equality check, its
    object path is one that the table maps to ADDR and its value matches
    [.+/.+], but the unpacking of [split("=")] raises [ValueError]; neither
    SUBNET nor ADDR is emitted. *)
Theorem C8_addr_holding_equals_sign_raises
    (Pattern_inspect : string → result pattern_data) ns lg id created upd :
  Pattern_inspect "[ipv4-addr:value = 'a=b/c']"
    = Ok (inspected "ipv4-addr" [(["value"], "=", "'a=b/c'")]) →
  is_point_equality_ioc Pattern_inspect "[ipv4-addr:value = 'a=b/c']" = Ok true
  ∧ zeek_intel_type_map !! "ipv4-addr:value" = Some "ADDR"
  ∧ Re.matches_at_start subnet_re "a=b/c"
  ∧ map_indicator_to_broker_event Pattern_inspect
      (MIndicator (mkIndicator id created "[ipv4-addr:value = 'a=b/c']" upd))
      ns lg
    = ([], Raise ValueError).
Proof.
  intros H.
  assert (Hpoint : is_point_equality_ioc Pattern_inspect
            "[ipv4-addr:value = 'a=b/c']" = Ok true).
  { unfold is_point_equality_ioc. by rewrite H. }
  split_and!; [done | by vm_compute | apply re_match_iff; by vm_compute |].
  apply map_indicator_unpack_fails; [done | by vm_compute].
Qed.

Lemma C8_addr_holding_equals_sign_raises_witness :
  map_indicator_to_broker_event
    (λ _, Ok (inspected "ipv4-addr" [(["value"], "=", "'a=b/c'")]))
    (MIndicator (mkIndicator "indicator--1" 0
                   "[ipv4-addr:value = 'a=b/c']" None))
    "Tb" LoggerObj
  = ([], Raise ValueError).
Proof.
  exact (proj2 (proj2 (proj2 (C8_addr_holding_equals_sign_raises
                  (λ _, Ok (inspected "ipv4-addr" [(["value"], "=", "'a=b/c'")]))
                  "Tb" LoggerObj "indicator--1" 0 None eq_refl)))).
Defined.

End TranslatorClaims.

(** ** The management translator *)

Section ManagementClaims.

Import Mapping.

(** A name without a colon does not start with [NS::]. *)
Lemma colon_free_not_qualified name ns :
  Py.contains ":" name = false → Py.startswith name (ns +:+ "::") = false.
Proof.
  unfold Py.startswith. revert ns.
  induction name as [|c name IH]; intros ns Hc.
  - by destruct ns.
  - cbn [Py.contains] in Hc. apply orb_false_iff in Hc as [Hc1 Hc2].
    apply Ascii.eqb_neq in Hc1.
    destruct ns as [|d ns].
    + rewrite string_app_nil_l. cbn [String.prefix].
      destruct (ascii_dec ":" c) as [Heq|_]; [congruence | done].
    + rewrite string_app_cons. cbn [String.prefix].
      destruct (ascii_dec d c) as [_|_]; [by apply IH | done].
Qed.

Lemma strip_namespace_bare name ns :
  Py.contains ":" name = false → strip_namespace name ns = name.
Proof.
  intros Hc. unfold strip_namespace.
  destruct (negb (String.eqb ns "")).
  - rewrite colon_free_not_qualified by done. apply slice_from_0.
  - destruct (Py.startswith name ""); apply slice_from_0.
Qed.

Lemma strip_namespace_qualified name ns :
  ns ≠ "" → strip_namespace (ns +:+ "::" +:+ name) ns = name.
Proof.
  intros Hns%String.eqb_neq. unfold strip_namespace. rewrite Hns.
  cbn [negb]. rewrite <- string_app_assoc.
  replace (Py.startswith ((ns +:+ "::") +:+ name) (ns +:+ "::")) with true
    by (symmetry; apply startswith_iff; by eexists).
  apply slice_skip.
Qed.

(** C9.  For a module namespace NS that is not empty, the event named
    [subscribe] is translated as the event named [NS::subscribe] with the
    same arguments, and [unsubscribe] as [NS::unsubscribe].  Whenever the
    name left by the conditional stripping is [subscribe] and there are two
    arguments of which the topic is not empty, the result is that
    Subscription; whenever it is [unsubscribe] and the one argument is a
    topic that is not empty, the result is that Unsubscription; a name that
    the stripping leaves different from both is unmappable. *)
Theorem C9_bare_management_names_are_accepted ns :
  ns ≠ "" →
  (∀ args,
     map_management_message (Event "subscribe" args) ns
     = map_management_message (Event (ns +:+ "::" +:+ "subscribe") args) ns)
  ∧ (∀ args,
     map_management_message (Event "unsubscribe" args) ns
     = map_management_message (Event (ns +:+ "::" +:+ "unsubscribe") args) ns)
  ∧ strip_namespace "subscribe" ns = "subscribe"
  ∧ strip_namespace "unsubscribe" ns = "unsubscribe"
  ∧ (∀ name topic snapshot_delta,
     strip_namespace name ns = "subscribe" → truthy topic = true →
     map_management_message (Event name [topic; snapshot_delta]) ns
     = Some (TSubscription (mkSubscription topic snapshot_delta)))
  ∧ (∀ name topic,
     strip_namespace name ns = "unsubscribe" → truthy topic = true →
     map_management_message (Event name [topic]) ns
     = Some (TUnsubscription (mkUnsubscription topic)))
  ∧ (∀ name args,
     strip_namespace name ns ≠ "subscribe" →
     strip_namespace name ns ≠ "unsubscribe" →
     map_management_message (Event name args) ns = None).
Proof.
  intros Hns.
  assert (Hs : strip_namespace "subscribe" ns = "subscribe")
    by (by apply strip_namespace_bare).
  assert (Hu : strip_namespace "unsubscribe" ns = "unsubscribe")
    by (by apply strip_namespace_bare).
  split_and!; try done.
  - intros args. unfold map_management_message. cbn [ev_name ev_args].
    by rewrite Hs, strip_namespace_qualified.
  - intros args. unfold map_management_message. cbn [ev_name ev_args].
    by rewrite Hu, strip_namespace_qualified.
  - intros name topic delta Hname Htopic.
    unfold map_management_message. cbn [ev_name ev_args].
    rewrite Hname. cbn [length]. by rewrite Htopic.
  - intros name topic Hname Htopic.
    unfold map_management_message. cbn [ev_name ev_args].
    rewrite Hname. cbn [length]. by rewrite Htopic.
  - intros name args H1%String.eqb_neq H2%String.eqb_neq.
    unfold map_management_message. cbn [ev_name ev_args].
    by rewrite H1, H2.
Qed.

Lemma C9_bare_management_names_are_accepted_witness :
  map_management_message
    (Event "subscribe" [DString "threatbus/intel"; DTimespan 0]) "Tb"
  = Some (TSubscription (mkSubscription (DString "threatbus/intel") (DTimespan 0))).
Proof.
  apply (C9_bare_management_names_are_accepted "Tb");
    [discriminate | | reflexivity].
  apply (C9_bare_management_names_are_accepted "Tb"). discriminate.
Defined.

End ManagementClaims.

(** ** The registry and the fan-out of the backbones *)

Section BackboneFacts.

Implicit Types (subs : gmap string (gset nat)) (q : nat) (msg : message).
Implicit Types (topic t : string).

(** Who gets a message: the queues registered under a prefix of the
    topic. *)
Lemma elem_of_put_to_subscribers topic msg subs q m :
  Put q m ∈ put_to_subscribers topic msg subs ↔
  m = msg ∧ ∃ t qs, subs !! t = Some qs ∧ q ∈ qs ∧ ∃ r, topic = t +:+ r.
Proof.
  unfold put_to_subscribers. rewrite list_elem_of_bind. split.
  - intros (t & Hin & Ht). apply list_elem_of_filter in Ht as [Hstart Ht].
    apply list_elem_of_fmap in Ht as ([t' qs] & -> & Hkv).
    apply elem_of_map_to_list in Hkv. cbn [fst] in *.
    apply list_elem_of_bind in Hin as (o & Ho & Hoq).
    apply list_elem_of_singleton in Ho. injection Ho as -> ->.
    apply elem_of_elements in Hoq. rewrite lookup_total_alt, Hkv in Hoq.
    split; [done|]. exists t', qs. split_and!; [done..|].
    by apply startswith_iff.
  - intros (-> & t & qs & Hkv & Hq & Hpre). exists t. split.
    + apply list_elem_of_bind. exists q. split; [by apply list_elem_of_singleton|].
      apply elem_of_elements. by rewrite lookup_total_alt, Hkv.
    + apply list_elem_of_filter. split; [by apply startswith_iff|].
      apply list_elem_of_fmap. exists (t, qs). split; [done|].
      by apply elem_of_map_to_list.
Qed.

Lemma enqueued_app q (l1 l2 : list effect) :
  enqueued q (l1 ++ l2) = enqueued q l1 ++ enqueued q l2.
Proof. apply omap_app. Qed.

(** The inner loop over a set puts the message once into each queue of the
    set. *)
Lemma enqueued_inner q msg (l : list nat) :
  NoDup l →
  enqueued q (l ≫= λ outq, [Put outq msg]) = if decide (q ∈ l) then [msg] else [].
Proof.
  induction 1 as [|o l Ho Hl IH]; [done|].
  rewrite bind_cons, enqueued_app, IH.
  unfold enqueued at 1. cbn [omap list_omap].
  destruct (decide (o = q)) as [->|Hne];
    destruct (decide (q ∈ l)) as [Hin|Hin];
    destruct (decide (q ∈ _ :: l)) as [Hc|Hc];
    try done; exfalso; rewrite elem_of_cons in Hc; naive_solver.
Qed.

(** The outer loop: a queue that sits under exactly one of the topics
    visited gets the message once. *)
Lemma enqueued_outer q msg (f : string → gset nat) (keys : list string) t0 :
  NoDup keys → t0 ∈ keys → q ∈ f t0 →
  (∀ t, t ∈ keys → t ≠ t0 → q ∉ f t) →
  enqueued q (keys ≫= λ t, elements (f t) ≫= λ outq, [Put outq msg]) = [msg].
Proof.
  assert (Hnone : ∀ ks : list string, (∀ t, t ∈ ks → q ∉ f t) →
    enqueued q (ks ≫= λ t, elements (f t) ≫= λ outq, [Put outq msg]) = []).
  { induction ks as [|k ks IH]; intros Hks; [done|].
    rewrite bind_cons, enqueued_app, enqueued_inner by apply NoDup_elements.
    rewrite decide_False; [apply IH; intros; apply Hks; by right|].
    rewrite elem_of_elements. apply Hks. by left. }
  induction 1 as [|k ks Hk Hks IH]; intros Ht0 Hq Hother; [by inv Ht0|].
  rewrite bind_cons, enqueued_app, enqueued_inner by apply NoDup_elements.
  apply elem_of_cons in Ht0 as [<-|Ht0].
  - rewrite decide_True by (by apply elem_of_elements).
    rewrite Hnone; [done|]. intros t Ht. apply Hother; [by right|].
    intros ->. done.
  - rewrite decide_False.
    + apply IH; [done..|]. intros t Ht. apply Hother. by right.
    + rewrite elem_of_elements. apply Hother; [by left|]. by intros ->.
Qed.

Lemma subscribe_one topic q subs :
  Inmem.subscribe [topic] q subs = <[topic := subs !!! topic ∪ {[q]}]> subs.
Proof. reflexivity. Qed.

Lemma subscribe_again topic q subs :
  Inmem.subscribe [topic] q (Inmem.subscribe [topic] q subs)
  = Inmem.subscribe [topic] q subs.
Proof.
  rewrite !subscribe_one, lookup_total_insert_eq, insert_insert_eq.
  f_equal. set_solver.
Qed.

End BackboneFacts.

(** ** Claims about routing and subscribing *)

Section RoutingClaims.

Implicit Types (subs : gmap string (gset nat)) (q : nat) (msg : message).

(** C1, as the specification states it, fails on the in-memory backbone:
    an Indicator is not delivered to the subscriber of [threatbus/intel],
    although that topic is a prefix of the canonical topic of an
    Indicator. *)
Lemma C1_inmem_topic_is_not_the_canonical_one :
  ¬ (∀ msg subs q topic,
       spec_topic msg = Some topic →
       (Put q msg ∈ Inmem.provision_msg msg subs ↔
        ∃ t qs, subs !! t = Some qs ∧ q ∈ qs ∧ ∃ r, topic = t +:+ r)).
Proof.
  intros H.
  specialize (H (MIndicator (mkIndicator "indicator--1" 0
                               "[domain-name:value = 'evil.com']" None))
                {["threatbus/intel" := {[0%nat]}]} 0%nat
                "threatbus/intel" eq_refl).
  destruct H as [_ H].
  assert (Hin : Put 0 (MIndicator (mkIndicator "indicator--1" 0
                         "[domain-name:value = 'evil.com']" None))
                ∈ Inmem.provision_msg
                    (MIndicator (mkIndicator "indicator--1" 0
                       "[domain-name:value = 'evil.com']" None))
                    {["threatbus/intel" := {[0%nat]}]}).
  { apply H. exists "threatbus/intel", {[0%nat]}.
    split; [apply lookup_singleton_eq|]. split; [set_solver|]. by exists "". }
  unfold Inmem.provision_msg in Hin. apply elem_of_cons in Hin as [Hin|Hin];
    [discriminate|].
  apply elem_of_put_to_subscribers in Hin as (_ & t & qs & Ht & _ & Hpre).
  apply lookup_singleton_Some in Ht as [<- _].
  apply startswith_iff in Hpre. by vm_compute in Hpre.
Qed.

(** What a consumer callback of the durable backbone puts into a queue
    when the body decodes to a message that counts as true. *)
Lemma consumer_callback_delivery
    (json_loads : list Byte.byte → Rabbitmq.decoder → result message)
    d topic tag body msg subs q :
  json_loads body d = Ok msg → msg_truthy msg = true →
  Put q msg ∈ (Rabbitmq.consumer_callback json_loads d topic tag body subs).1 ↔
  ∃ t qs, subs !! t = Some qs ∧ q ∈ qs ∧ ∃ r, topic = t +:+ r.
Proof.
  intros Hd Ht. unfold Rabbitmq.consumer_callback, Rabbitmq.__decode.
  rewrite Hd.
  cbv [mbind run_mbind bind mret run_mret ret emit Rabbitmq.provision fst].
  rewrite Ht.
  cbv [mbind run_mbind bind mret run_mret ret emit Rabbitmq.provision fst].
  rewrite !elem_of_app, !elem_of_cons, elem_of_nil, elem_of_put_to_subscribers.
  naive_solver.
Qed.

(** C1, amended.  The in-memory worker delivers a message under the topic
    [tenzir/threatbus/] followed by the lower-cased name of the class of
    the message, and enqueues it into a queue iff the queue is registered
    under a topic that is a byte-wise prefix of that topic.  In the durable
    backbone the callbacks of the intel, the snapshot-request and the
    snapshot-envelope queue deliver under the canonical topics
    [threatbus/intel], [threatbus/snapshotrequest] and
    [threatbus/snapshotenvelope]: the message that the body decodes to, when
    it counts as true, is enqueued into a queue iff the queue is registered
    under a byte-wise prefix of that canonical topic. *)
Theorem C1_delivery_iff_prefix_of_the_topic_used :
  (∀ i, Inmem.topic_of (MIndicator i) = "tenzir/threatbus/indicator")
  ∧ (∀ s, Inmem.topic_of (MSighting s) = "tenzir/threatbus/sighting")
  ∧ (∀ id, Inmem.topic_of (MSnapshotRequest id)
           = "tenzir/threatbus/snapshotrequest")
  ∧ (∀ id, Inmem.topic_of (MSnapshotEnvelope id)
           = "tenzir/threatbus/snapshotenvelope")
  ∧ (∀ msg subs q,
       Put q msg ∈ Inmem.provision_msg msg subs ↔
       ∃ t qs, subs !! t = Some qs ∧ q ∈ qs
               ∧ ∃ r, "tenzir/threatbus/" +:+ Py.lower (type_name msg) = t +:+ r)
  ∧ (∀ json_loads tag body msg subs q,
       json_loads body Rabbitmq.IntelDecoder = Ok msg →
       msg_truthy msg = true →
       (Put q msg ∈ (Rabbitmq.__provision_intel json_loads tag body subs).1 ↔
        ∃ t qs, subs !! t = Some qs ∧ q ∈ qs
                ∧ ∃ r, "threatbus/intel" = t +:+ r))
  ∧ (∀ json_loads tag body msg subs q,
       json_loads body Rabbitmq.SnapshotRequestDecoder = Ok msg →
       msg_truthy msg = true →
       (Put q msg
          ∈ (Rabbitmq.__provision_snapshot_request json_loads tag body subs).1 ↔
        ∃ t qs, subs !! t = Some qs ∧ q ∈ qs
                ∧ ∃ r, "threatbus/snapshotrequest" = t +:+ r))
  ∧ (∀ json_loads tag body msg subs q,
       json_loads body Rabbitmq.SnapshotEnvelopeDecoder = Ok msg →
       msg_truthy msg = true →
       (Put q msg
          ∈ (Rabbitmq.__provision_snapshot_envelope json_loads tag body subs).1 ↔
        ∃ t qs, subs !! t = Some qs ∧ q ∈ qs
                ∧ ∃ r, "threatbus/snapshotenvelope" = t +:+ r)).
Proof.
  split_and!; try reflexivity.
  - intros msg subs q. unfold Inmem.provision_msg. rewrite elem_of_cons.
    rewrite elem_of_put_to_subscribers. unfold Inmem.topic_of. naive_solver.
  - intros json_loads tag body msg subs q.
    exact (consumer_callback_delivery json_loads Rabbitmq.IntelDecoder
             "threatbus/intel" tag body msg subs q).
  - intros json_loads tag body msg subs q.
    exact (consumer_callback_delivery json_loads Rabbitmq.SnapshotRequestDecoder
             "threatbus/snapshotrequest" tag body msg subs q).
  - intros json_loads tag body msg subs q.
    exact (consumer_callback_delivery json_loads Rabbitmq.SnapshotEnvelopeDecoder
             "threatbus/snapshotenvelope" tag body msg subs q).
Qed.

Lemma C1_delivery_iff_prefix_of_the_topic_used_witness :
  Put 0 (MOther "Intel" true)
  ∈ (Rabbitmq.__provision_intel (λ _ _, Ok (MOther "Intel" true)) 1%N []
       {["threatbus" := {[0%nat]}]}).1.
Proof.
  apply (proj1 (proj2 (proj2 (proj2 (proj2 (proj2
           C1_delivery_iff_prefix_of_the_topic_used)))))
           (λ _ _, Ok (MOther "Intel" true)) 1%N [] (MOther "Intel" true)
           {["threatbus" := {[0%nat]}]} 0%nat eq_refl eq_refl).
  exists "threatbus", {[0%nat]}.
  split; [apply lookup_singleton_eq|]. split; [set_solver|]. by exists "/intel".
Defined.

(** The sighting callback of the durable backbone provisions under
    [threatbus/sightings], so a queue registered under exactly that topic
    receives Sightings. *)
Lemma rabbitmq_sighting_topic_is_plural json_loads tag body s :
  json_loads body Rabbitmq.SightingDecoder = Ok (MSighting s) →
  enqueued 0 (Rabbitmq.__provision_sighting json_loads tag body
                {["threatbus/sightings" := {[0%nat]}]}).1
  = [MSighting s].
Proof.
  intros H. unfold Rabbitmq.__provision_sighting, Rabbitmq.consumer_callback,
    Rabbitmq.__decode. rewrite H. by vm_compute.
Qed.

(** C10.  In the in-memory backbone, subscribing the same queue to the same
    topic once more changes nothing: after any number of further calls the
    registry is the one after the first call, so every message is
    provisioned as after a single call.  The loop over the entry of that
    topic then puts a message into the queue exactly once; and when the
    topic is a prefix of the topic of the message and the queue is
    registered under no other such prefix, [provision] puts the message
    into the queue exactly once. *)
Theorem C10_subscribe_is_idempotent topic q subs (n : nat) msg :
  let once := Inmem.subscribe [topic] q subs in
  let many := Nat.iter (S n) (Inmem.subscribe [topic] q) subs in
  many = once
  ∧ Inmem.provision_msg msg many = Inmem.provision_msg msg once
  ∧ enqueued q (elements (many !!! topic) ≫= λ outq, [Put outq msg]) = [msg]
  ∧ (Py.startswith (Inmem.topic_of msg) topic = true →
     (∀ t, t ≠ topic → Py.startswith (Inmem.topic_of msg) t = true →
           q ∉ subs !!! t) →
     enqueued q (Inmem.provision_msg msg many) = [msg]).
Proof.
  intros once many.
  assert (Hmany : many = once).
  { subst once many. induction n as [|n IH]; [done|].
    change (Nat.iter (S (S n)) ?f ?x) with (f (Nat.iter (S n) f x)).
    rewrite IH. apply subscribe_again. }
  rewrite Hmany. subst once. clear many Hmany.
  assert (Hq : q ∈ Inmem.subscribe [topic] q subs !!! topic).
  { rewrite subscribe_one, lookup_total_insert_eq. set_solver. }
  split_and!; [done..| |].
  - rewrite enqueued_inner by apply NoDup_elements.
    by rewrite decide_True by (by apply elem_of_elements).
  - intros Hstart Hother. unfold Inmem.provision_msg, put_to_subscribers.
    change (enqueued q (?e :: ?l)) with (enqueued q ([e] ++ l)).
    rewrite enqueued_app. change (enqueued q [Log _ _]) with (@nil message).
    rewrite app_nil_l.
    apply (enqueued_outer q msg
             (λ t, Inmem.subscribe [topic] q subs !!! t) _ topic).
    + apply NoDup_filter, NoDup_fst_map_to_list.
    + apply list_elem_of_filter. split; [done|].
      apply list_elem_of_fmap.
      exists (topic, Inmem.subscribe [topic] q subs !!! topic).
      split; [done|]. apply elem_of_map_to_list.
      rewrite subscribe_one, lookup_total_insert_eq. apply lookup_insert_eq.
    + done.
    + intros t [Ht _]%list_elem_of_filter Hne.
      rewrite subscribe_one, lookup_total_insert_ne by done. by apply Hother.
Qed.

Lemma C10_subscribe_is_idempotent_witness :
  enqueued 7 (Inmem.provision_msg (MSnapshotRequest "r1")
                (Nat.iter 3 (Inmem.subscribe ["tenzir/threatbus/"] 7) ∅))
  = [MSnapshotRequest "r1"].
Proof.
  apply (C10_subscribe_is_idempotent "tenzir/threatbus/" 7 ∅ 2
           (MSnapshotRequest "r1")).
  - reflexivity.
  - intros t _ _. rewrite lookup_total_empty. apply not_elem_of_empty.
Defined.

End RoutingClaims.

(** ** Unsubscribing *)

Section UnsubscribeFacts.

Implicit Types (subs : gmap string (gset nat)) (q : nat) (msg : message).
Implicit Types (topics : list string) (topic t : string).

Lemma unsubscribe_closed topics q subs :
  Inmem.unsubscribe topics q subs = Ok (foldl (discard q) subs topics).
Proof.
  revert subs. induction topics as [|topic topics IH]; intros subs; [done|].
  cbn [Inmem.unsubscribe foldl]. unfold touch, set_remove.
  rewrite lookup_total_insert_eq.
  destruct (decide (q ∈ subs !!! topic)) as [Hq|Hq].
  - cbn [mbind result_mbind]. rewrite insert_insert_eq. apply IH.
  - cbn [mbind result_mbind]. rewrite IH. do 2 f_equal. unfold discard.
    f_equal. set_solver.
Qed.

Lemma discard_lookup_total q subs topic t :
  discard q subs topic !!! t
  = if decide (t = topic) then subs !!! t ∖ {[q]} else subs !!! t.
Proof.
  unfold discard. destruct (decide (t = topic)) as [->|Hne].
  - apply lookup_total_insert_eq.
  - by apply lookup_total_insert_ne.
Qed.

Lemma foldl_discard_lookup topics q subs t :
  foldl (discard q) subs topics !! t
  = if decide (t ∈ topics) then Some (subs !!! t ∖ {[q]}) else subs !! t.
Proof.
  revert subs. induction topics as [|topic topics IH]; intros subs.
  - cbn [foldl]. rewrite decide_False; [done | apply not_elem_of_nil].
  - cbn [foldl]. rewrite IH, discard_lookup_total.
    destruct (decide (t = topic)) as [->|Hne].
    + rewrite (decide_True (P := topic ∈ topic :: topics)) by left.
      destruct (decide (topic ∈ topics)).
      * f_equal. set_solver.
      * unfold discard. by rewrite lookup_insert_eq.
    + destruct (decide (t ∈ topics)) as [Hin|Hin].
      * by rewrite decide_True by (by right).
      * rewrite decide_False by (rewrite elem_of_cons; naive_solver).
        unfold discard. by rewrite lookup_insert_ne.
Qed.

Lemma unsubscribe_twice topics q subs subs' :
  Inmem.unsubscribe topics q subs = Ok subs' →
  Inmem.unsubscribe topics q subs' = Ok subs'.
Proof.
  rewrite !unsubscribe_closed. intros [= <-]. f_equal.
  apply map_eq. intros t. rewrite foldl_discard_lookup.
  destruct (decide (t ∈ topics)) as [Hin|Hin]; [|done].
  rewrite lookup_total_alt, !foldl_discard_lookup, !decide_True by done.
  cbn [default]. f_equal. set_solver.
Qed.

Lemma bind_ext_in {A B} (f g : A → list B) (l : list A) :
  (∀ x, x ∈ l → f x = g x) → l ≫= f = l ≫= g.
Proof.
  induction l as [|a l IH]; intros H; [done|].
  rewrite !bind_cons, H by left. f_equal. apply IH. intros. apply H. by right.
Qed.

(** Entering a topic with the set it already has, or with the empty set
    when it was missing, does not change who gets a message. *)
Lemma put_to_subscribers_touch topic msg subs t :
  put_to_subscribers topic msg (touch t subs)
  ≡ₚ put_to_subscribers topic msg subs.
Proof.
  unfold touch. destruct (subs !! t) as [X|] eqn:Ht.
  - rewrite insert_id; [done|]. by rewrite lookup_total_alt, Ht.
  - assert (Hempty : subs !!! t = ∅) by (by rewrite lookup_total_alt, Ht).
    rewrite Hempty. unfold put_to_subscribers.
    rewrite (bind_ext_in _
      (λ t', elements (subs !!! t') ≫= λ outq, [Put outq msg])).
    2:{ intros t' _. destruct (decide (t' = t)) as [->|Hne].
        - by rewrite lookup_total_insert_eq, Hempty.
        - by rewrite lookup_total_insert_ne. }
    rewrite (map_to_list_insert subs t ∅ Ht). rewrite fmap_cons. cbn [fst].
    rewrite filter_cons. destruct (decide (Py.startswith topic t = true)); [|done].
    rewrite bind_cons, Hempty, elements_empty. done.
Qed.

Lemma touch_lookup_total subs t t' : touch t subs !!! t' = subs !!! t'.
Proof.
  unfold touch. destruct (decide (t' = t)) as [->|Hne].
  - apply lookup_total_insert_eq.
  - by apply lookup_total_insert_ne.
Qed.

Lemma unsubscribe_absent topics q subs :
  (∀ t, t ∈ topics → q ∉ subs !!! t) →
  ∃ subs', Inmem.unsubscribe topics q subs = Ok subs' ∧
    ∀ msg, Inmem.provision_msg msg subs' ≡ₚ Inmem.provision_msg msg subs.
Proof.
  rewrite unsubscribe_closed. intros Habs. eexists. split; [done|].
  intros msg. unfold Inmem.provision_msg. f_equiv.
  revert subs Habs. induction topics as [|topic topics IH]; intros subs Habs;
    [done|].
  cbn [foldl].
  assert (Hd : discard q subs topic = touch topic subs).
  { unfold discard, touch. f_equal.
    assert (q ∉ subs !!! topic) by (apply Habs; by left). set_solver. }
  rewrite Hd, IH.
  - apply put_to_subscribers_touch.
  - intros t Ht. rewrite touch_lookup_total. apply Habs. by right.
Qed.

(** The Zeek plugin ignores an Unsubscription for a p2p-topic it does not
    know. *)
Lemma manage_unsubscription_unknown randbelow ns p2p st :
  Zeek.subscriptions st !! p2p = None →
  Zeek.manage_subscription randbelow ns
    (TUnsubscription (mkUnsubscription (DString p2p))) st
  = ([Log Info "Received unsubscription from topic"], Ok st).
Proof.
  intros H. unfold Zeek.manage_subscription. cbn [unsub_topic Zeek.as_str].
  rewrite lift_ok_bind, H. reflexivity.
Qed.

(** C4.  [unsubscribe] of the in-memory backbone always returns; a second
    call with the same topics and queue returns the registry it is given;
    a call for a queue that is under none of the topics leaves, for every
    message, the same deliveries (the same effects up to their order).  In
    the Zeek plugin an Unsubscription for a p2p-topic that is not in the map
    only writes the log line, calls no callback and leaves the state as it
    is, which is also what a second Unsubscription for the same p2p-topic
    does. *)
Theorem C4_unsubscribe_again_is_a_no_op :
  (∀ topics q subs, ∃ subs', Inmem.unsubscribe topics q subs = Ok subs')
  ∧ (∀ topics q subs subs',
       Inmem.unsubscribe topics q subs = Ok subs' →
       Inmem.unsubscribe topics q subs' = Ok subs')
  ∧ (∀ topics q subs,
       (∀ t, t ∈ topics → q ∉ subs !!! t) →
       ∃ subs', Inmem.unsubscribe topics q subs = Ok subs' ∧
         ∀ msg, Inmem.provision_msg msg subs' ≡ₚ Inmem.provision_msg msg subs)
  ∧ (∀ randbelow ns p2p st,
       Zeek.subscriptions st !! p2p = None →
       Zeek.manage_subscription randbelow ns
         (TUnsubscription (mkUnsubscription (DString p2p))) st
       = ([Log Info "Received unsubscription from topic"], Ok st))
  ∧ (∀ randbelow ns p2p st effects st',
       Zeek.manage_subscription randbelow ns
         (TUnsubscription (mkUnsubscription (DString p2p))) st
       = (effects, Ok st') →
       Zeek.manage_subscription randbelow ns
         (TUnsubscription (mkUnsubscription (DString p2p))) st'
       = ([Log Info "Received unsubscription from topic"], Ok st')).
Proof.
  split_and!.
  - intros. rewrite unsubscribe_closed. by eexists.
  - apply unsubscribe_twice.
  - apply unsubscribe_absent.
  - apply manage_unsubscription_unknown.
  - intros randbelow ns p2p st effects st' H.
    apply manage_unsubscription_unknown.
    unfold Zeek.manage_subscription in H. cbn [unsub_topic Zeek.as_str] in H.
    rewrite lift_ok_bind in H.
    destruct (Zeek.subscriptions st !! p2p) as [p2p_q|] eqn:Hq.
    + unfold dict_del in H. rewrite Hq in H. injection H as _ <-.
      apply lookup_delete_eq.
    + by injection H as _ <-.
Qed.

Lemma C4_unsubscribe_again_is_a_no_op_witness :
  Inmem.unsubscribe ["threatbus/intel"] 0
    {["threatbus/intel" := ∅; "threatbus/sighting" := {[0%nat]}]}
  = Ok {["threatbus/intel" := ∅; "threatbus/sighting" := {[0%nat]}]}.
Proof.
  apply (proj1 (proj2 C4_unsubscribe_again_is_a_no_op) ["threatbus/intel"] 0%nat
           {["threatbus/intel" := {[0%nat]}; "threatbus/sighting" := {[0%nat]}]}).
  vm_compute. reflexivity.
Defined.

End UnsubscribeFacts.

(** ** The consumer callbacks of the durable backbone *)

Section ConsumerClaims.

Variable json_loads : list Byte.byte → Rabbitmq.decoder → result message.

Implicit Types (subs : gmap string (gset nat)) (d : Rabbitmq.decoder).

(** The effects of a callback, by the outcome of decoding. *)
Lemma consumer_callback_effects d topic tag body subs :
  Rabbitmq.consumer_callback json_loads d topic tag body subs
  = (match json_loads body d with
     | Raise _ => [Log Error "Error decoding message"]
     | Ok m => if msg_truthy m
               then Log Debug "Relaying message from RabbitMQ"
                    :: put_to_subscribers topic m subs
               else []
     end ++ [BasicAck tag], Ok tt).
Proof.
  unfold Rabbitmq.consumer_callback, Rabbitmq.__decode, Rabbitmq.provision.
  destruct (json_loads body d) as [m|e]; [destruct (msg_truthy m) eqn:Hm|].
  - unfold mbind, run_mbind, bind, mret, run_mret, ret, emit.
    rewrite Hm. reflexivity.
  - unfold mbind, run_mbind, bind, mret, run_mret, ret, emit.
    by rewrite Hm.
  - reflexivity.
Qed.

Lemma put_to_subscribers_only_puts topic msg subs e :
  e ∈ put_to_subscribers topic msg subs → ∃ q, e = Put q msg.
Proof.
  unfold put_to_subscribers.
  intros (t & (q & ->%list_elem_of_singleton & _)%list_elem_of_bind & _)%list_elem_of_bind.
  by exists q.
Qed.

End ConsumerClaims.

(** C5.  Each of the four consumer callbacks (a decoder [d] and the topic
    of its queue) returns, and its effects end with the one acknowledgment
    of the delivery; nothing before it is an acknowledgment.  When decoding
    raises, what comes before is one error log entry, so that nothing is put
    into any queue; when decoding returns a message that counts as true,
    what comes before is all of [provision] for that message; when it
    returns an object that counts as false, nothing comes before. *)
Theorem C5_ack_comes_last_also_for_poison
    (json_loads : list Byte.byte → Rabbitmq.decoder → result message)
    d topic tag body (subs : gmap string (gset nat)) :
  ∃ before,
    Rabbitmq.consumer_callback json_loads d topic tag body subs
    = (before ++ [BasicAck tag], Ok tt)
    ∧ (∀ tag', BasicAck tag' ∉ before)
    ∧ (∀ e, json_loads body d = Raise e →
         before = [Log Error "Error decoding message"]
         ∧ ∀ q, enqueued q before = [])
    ∧ (∀ m, json_loads body d = Ok m → msg_truthy m = true →
         before = (Rabbitmq.provision topic m subs).1)
    ∧ (∀ m, json_loads body d = Ok m → msg_truthy m = false → before = []).
Proof.
  eexists. split; [apply consumer_callback_effects|].
  destruct (json_loads body d) as [m|e]; [destruct (msg_truthy m) eqn:Hm|].
  - split_and!; try done.
    + intros tag' [Hin|Hin]%elem_of_cons; [discriminate|].
      by apply put_to_subscribers_only_puts in Hin as [q Hq].
    + by intros m' [= <-] _.
    + intros m' [= <-]. congruence.
  - split_and!; try done.
    + intros tag'. apply not_elem_of_nil.
    + intros m' [= <-]. congruence.
  - split_and!; try done.
    intros tag' [Hin|Hin]%elem_of_cons; [discriminate | by inv Hin].
Qed.

Lemma C5_ack_comes_last_also_for_poison_witness :
  Rabbitmq.__provision_intel (λ _ _, Raise ValueError) 1%N []
    {["threatbus/intel" := {[0%nat]}]}
  = ([Log Error "Error decoding message"; BasicAck 1], Ok tt).
Proof.
  destruct (C5_ack_comes_last_also_for_poison (λ _ _, Raise ValueError)
              Rabbitmq.IntelDecoder "threatbus/intel" 1%N []
              {["threatbus/intel" := {[0%nat]}]})
    as (before & Hrun & _ & Hraise & _).
  destruct (Hraise ValueError eq_refl) as [-> _]. exact Hrun.
Defined.

(** ** Subscriptions in the Zeek plugin *)

Section SubscriptionClaims.

Variable randbelow : nat → nat.

Lemma get_contains s i c : String.get i s = Some c → Py.contains c s = true.
Proof.
  revert i. induction s as [|d s IH]; intros i; [done|].
  destruct i as [|i]; cbn [String.get Py.contains].
  - intros [= ->]. by rewrite Ascii.eqb_refl.
  - intros H%IH. rewrite H. apply orb_true_r.
Qed.

Lemma random_choice_lowercase k :
  Py.contains (Zeek.random_choice randbelow Zeek.ascii_lowercase k)
    Zeek.ascii_lowercase = true.
Proof.
  unfold Zeek.random_choice.
  destruct (String.get _ Zeek.ascii_lowercase) as [c|] eqn:Hc.
  - by apply get_contains in Hc.
  - reflexivity.
Qed.

Lemma rand_string_from_length k n :
  String.length (Zeek.rand_string_from randbelow k n) = n.
Proof.
  revert k. induction n as [|n IH]; intros k; [done|].
  cbn [Zeek.rand_string_from String.length]. by rewrite IH.
Qed.

Lemma rand_string_from_lowercase k n i c :
  String.get i (Zeek.rand_string_from randbelow k n) = Some c →
  Py.contains c Zeek.ascii_lowercase = true.
Proof.
  revert k i. induction n as [|n IH]; intros k i; [done|].
  cbn [Zeek.rand_string_from]. destruct i as [|i]; cbn [String.get].
  - intros [= <-]. apply random_choice_lowercase.
  - apply IH.
Qed.

(** A topic followed by a suffix of known length determines both. *)
Lemma topic_suffix_inj (t1 t2 s1 s2 : string) :
  String.length s1 = String.length s2 →
  t1 +:+ s1 = t2 +:+ s2 → t1 = t2 ∧ s1 = s2.
Proof.
  revert t2. induction t1 as [|c t1 IH]; intros t2 Hlen Heq.
  - destruct t2 as [|d t2]; [done|].
    rewrite string_app_nil_l, string_app_cons in Heq. subst s1.
    cbn [String.length] in Hlen. rewrite string_length_app in Hlen. lia.
  - destruct t2 as [|d t2].
    + rewrite string_app_nil_l, string_app_cons in Heq. subst s2.
      cbn [String.length] in Hlen. rewrite string_length_app in Hlen. lia.
    + rewrite !string_app_cons in Heq. injection Heq as -> Heq.
      destruct (IH _ Hlen Heq) as [-> ->]. done.
Qed.

End SubscriptionClaims.

(** C6, as the specification states it, fails: the code draws the suffix
    and does not compare the p2p-topic with those in use, so the p2p-topic
    it acknowledges can be that of a live subscription.  When the random
    source repeats its ten draws, a second subscription to the same topic
    is acknowledged with the p2p-topic of the first. *)
Lemma C6_p2p_topic_can_repeat :
  ¬ (∀ (randbelow : nat → nat) ns t snapshot st effects st' p2p_topic,
       Zeek.manage_subscription randbelow ns
         (TSubscription (mkSubscription (DString t) snapshot)) st
       = (effects, Ok st') →
       EpPublish "threatbus/manage"
         (Event (ns +:+ "::subscription_acknowledged") [DString p2p_topic])
         ∈ effects →
       Zeek.subscriptions st !! p2p_topic = None).
Proof.
  intros H.
  pose (randbelow := λ k : nat, (k mod 10)%nat).
  pose (sub := mkSubscription (DString "threatbus/intel") (DTimespan 0)).
  (* the state after a first subscription to threatbus/intel *)
  pose (st1 := Zeek.mkState {["threatbus/intelabcdefghij" := 0%nat]} 1 10).
  assert (H1 : Zeek.manage_subscription randbelow "Tb" (TSubscription sub)
                 (Zeek.mkState ∅ 0 0)
               = ([Log Info "Received subscription for topic";
                   EpPublish "threatbus/manage"
                     (Event "Tb::subscription_acknowledged"
                            [DString "threatbus/intelabcdefghij"]);
                   SubscribeCallback (DString "threatbus/intel") 0 (DTimespan 0)],
                  Ok st1))
    by (vm_compute; reflexivity).
  (* the second subscription *)
  assert (H2 : Zeek.manage_subscription randbelow "Tb" (TSubscription sub) st1
               = ([Log Info "Received subscription for topic";
                   EpPublish "threatbus/manage"
                     (Event "Tb::subscription_acknowledged"
                            [DString "threatbus/intelabcdefghij"]);
                   SubscribeCallback (DString "threatbus/intel") 1 (DTimespan 0)],
                  Ok (Zeek.mkState {["threatbus/intelabcdefghij" := 1%nat]} 2 20)))
    by (vm_compute; reflexivity).
  specialize (H randbelow "Tb" "threatbus/intel" (DTimespan 0) st1 _ _
                "threatbus/intelabcdefghij" H2).
  assert (Hin : Zeek.subscriptions st1 !! "threatbus/intelabcdefghij" = None).
  { apply H. right. left. }
  by vm_compute in Hin.
Qed.

(** C6, amended.  For a Subscription to the topic [t], the p2p-topic is [t]
    followed by the ten characters drawn next from the random source, each
    a lowercase letter; it is the p2p-topic carried by the one
    [subscription_acknowledged] event, published on [threatbus/manage], and
    the key under which the new queue, the one handed to the subscribe
    callback, is entered in the map of the plugin.  Two such p2p-topics are
    equal only if both the topics and the suffixes are equal. *)
Theorem C6_p2p_topic_is_topic_plus_ten_letters
    (randbelow : nat → nat) ns t snapshot st :
  let suffix := Zeek.rand_string_from randbelow (Zeek.draws_made st) 10 in
  let p2p_q := Zeek.queues_made st in
  String.length suffix = 10%nat
  ∧ (∀ i c, String.get i suffix = Some c →
            Py.contains c "abcdefghijklmnopqrstuvwxyz" = true)
  ∧ Zeek.manage_subscription randbelow ns
      (TSubscription (mkSubscription (DString t) snapshot)) st
    = ([Log Info "Received subscription for topic";
        EpPublish "threatbus/manage"
          (Event (ns +:+ "::subscription_acknowledged") [DString (t +:+ suffix)]);
        SubscribeCallback (DString t) p2p_q snapshot],
       Ok (Zeek.mkState (<[t +:+ suffix := p2p_q]> (Zeek.subscriptions st))
                        (S p2p_q) (Zeek.draws_made st + 10)))
  ∧ (∀ t' suffix', String.length suffix' = 10%nat →
       t' +:+ suffix' = t +:+ suffix → t' = t ∧ suffix' = suffix).
Proof.
  intros suffix p2p_q. split_and!.
  - apply rand_string_from_length.
  - intros i c. apply rand_string_from_lowercase.
  - reflexivity.
  - intros t' suffix' Hlen. apply topic_suffix_inj.
    rewrite Hlen. symmetry. apply rand_string_from_length.
Qed.

(** * Further properties of the code *)

(** ** More on Python strings *)

Section MoreStringFacts.

Implicit Types (s p q r : string) (c d : ascii).

Lemma split_length c s : length (Py.split c s) = S (Py.count c s).
Proof.
  induction s as [|d s IH]; [done|]. cbn [Py.split Py.count].
  destruct (Ascii.eqb d c); cbn [length]; [by rewrite IH|].
  destruct (Py.split c s) as [|h t]; [discriminate | done].
Qed.

Lemma split_no_sep c s : Py.contains c s = false → Py.split c s = [s].
Proof.
  induction s as [|d s IH]; [done|]. cbn [Py.contains Py.split].
  intros [Hd Hs]%orb_false_iff. by rewrite Hd, IH.
Qed.

Lemma split_at_sep c p q :
  Py.contains c p = false →
  Py.split c (p +:+ String c q) = p :: Py.split c q.
Proof.
  induction p as [|d p IH].
  - intros _. rewrite string_app_nil_l. cbn [Py.split].
    by rewrite Ascii.eqb_refl.
  - cbn [Py.contains]. intros [Hd Hp]%orb_false_iff.
    rewrite string_app_cons. cbn [Py.split]. by rewrite Hd, IH.
Qed.

Lemma unpack2_ok_iff {A} (l : list A) :
  (∃ a b, l = [a; b]) ↔ length l = 2%nat.
Proof.
  split; [by intros (a & b & ->)|].
  destruct l as [|a [|b [|c l]]]; try done. by exists a, b.
Qed.

Lemma substring_start s r :
  String.substring 0 (String.length s) (s +:+ r) = s.
Proof.
  induction s as [|c s IH]; [by destruct r|].
  rewrite string_app_cons. cbn [String.length String.substring]. by f_equal.
Qed.

(** [(a + s + b)[1:-1]] is [s] for characters [a] and [b]. *)
Lemma slice_inner c d s :
  Py.slice (String c (s +:+ String d "")) (Some 1) (Some (-1)) = s.
Proof.
  unfold Py.slice, Py.clip, Py.len. cbn [String.length].
  rewrite string_length_app. cbn [String.length].
  replace (1 <? 0) with false by done. replace (-1 <? 0) with true by done.
  rewrite Z.min_l by lia. rewrite Z.max_r by lia.
  change (Z.to_nat 1) with 1%nat. cbn [String.substring].
  replace (Z.to_nat _) with (String.length s) by lia.
  apply substring_start.
Qed.

Lemma rstrip_keeps_last c s :
  Py.isspace c = false → Py.rstrip (s +:+ String c "") = s +:+ String c "".
Proof.
  intros Hc. induction s as [|d s IH].
  - rewrite string_app_nil_l. cbn [Py.rstrip]. by rewrite Hc.
  - rewrite string_app_cons. cbn [Py.rstrip]. rewrite IH.
    by destruct s.
Qed.

Lemma endswith_last c s : Py.endswith (s +:+ String c "") (String c "") = true.
Proof.
  unfold Py.endswith. rewrite string_length_app. cbn [String.length].
  replace (String.length s + 1 - 1)%nat with (String.length s) by lia.
  pose proof (substring_skip s (String c "")) as H.
  cbn [String.length] in H. rewrite H, String.eqb_refl.
  rewrite andb_true_r. apply Nat.leb_le. lia.
Qed.

(** [(s + suffix)[:len(s + suffix) - len(suffix)]] is [s]. *)
Lemma slice_without_suffix s r :
  Py.slice (s +:+ r) None (Some (Py.len (s +:+ r) - Py.len r)) = s.
Proof.
  unfold Py.slice, Py.clip, Py.len. rewrite string_length_app.
  destruct (Z.ltb_spec (Z.of_nat (String.length s + String.length r)
                        - Z.of_nat (String.length r)) 0) as [?|_]; [lia|].
  rewrite Z.min_l by lia. rewrite Z.sub_0_r.
  change (Z.to_nat 0) with 0%nat.
  replace (Z.to_nat _) with (String.length s) by lia.
  apply substring_start.
Qed.

(** A string of white space only is one that [lstrip] empties. *)
Lemma lstrip_skips_space w s : Py.lstrip w = "" → Py.lstrip (w +:+ s) = Py.lstrip s.
Proof.
  induction w as [|c w IH]; [done|].
  rewrite string_app_cons. cbn [Py.lstrip].
  destruct (Py.isspace c); [exact IH | discriminate].
Qed.

Lemma rstrip_of_space w : Py.lstrip w = "" → Py.rstrip w = "".
Proof.
  induction w as [|c w IH]; [done|]. cbn [Py.lstrip Py.rstrip].
  destruct (Py.isspace c) eqn:Hc; [|discriminate].
  intros H. by rewrite (IH H).
Qed.

Lemma rstrip_skips_space w s : Py.lstrip w = "" → Py.rstrip (s +:+ w) = Py.rstrip s.
Proof.
  intros Hw. induction s as [|c s IH].
  - rewrite string_app_nil_l. by apply rstrip_of_space.
  - rewrite string_app_cons. cbn [Py.rstrip]. by rewrite IH.
Qed.

End MoreStringFacts.

(** ** More on the intel translator *)

Section MoreTranslatorFacts.

Import Mapping.

Variable Pattern_inspect : string → result pattern_data.

(** The body of a pattern: [indicator.pattern[1:-1]]. *)
Notation body_of ind := (Py.slice (ind_pattern ind) (Some 1) (Some (-1))).

Ltac run_steps :=
  cbv [mbind run_mbind bind logger_debug emit throw lift mret run_mret ret
       fst snd app].

Lemma unpack2_fails {A} (l : list A) :
  length l ≠ 2%nat → Py.unpack2 l = Raise ValueError.
Proof. by destruct l as [|a [|b [|c l]]]. Qed.

(** X1.  Once the pattern has passed the point-equality check, the
    translator raises [ValueError] exactly when the body of the pattern
    holds a number of [=] other than one. *)
Theorem X1_value_error_iff_not_one_equals_sign ind ns lg :
  is_point_equality_ioc Pattern_inspect (ind_pattern ind) = Ok true →
  (map_indicator_to_broker_event Pattern_inspect (MIndicator ind) ns lg).2
    = Raise ValueError
  ↔ Py.count "=" (body_of ind) ≠ 1%nat.
Proof.
  intros Hpoint.
  pose proof (split_length "=" (body_of ind)) as Hlen.
  destruct (decide (Py.count "=" (body_of ind) = 1%nat)) as [Hone|Hne].
  - split; [|done]. intros Hraise. exfalso.
    rewrite Hone in Hlen. apply unpack2_ok_iff in Hlen as (p & v & Hsplit).
    revert Hraise. unfold map_indicator_to_broker_event.
    rewrite Hpoint, lift_ok_bind. cbn [negb]. rewrite Hsplit. cbn [Py.unpack2].
    rewrite lift_ok_bind. cbn [fst snd].
    destruct (zeek_intel_type_map !! Py.strip p) as [z|];
      [destruct (String.eqb z "");
       [destruct lg; run_steps; discriminate|]
      |destruct lg; run_steps; discriminate].
    destruct (String.eqb z "URL"); [run_steps; discriminate|].
    destruct (String.eqb z "ADDR" && _); run_steps; discriminate.
  - split; [done|]. intros _.
    rewrite (map_indicator_unpack_fails Pattern_inspect ind ns lg ValueError);
      [done | done |].
    apply unpack2_fails. lia.
Qed.

(** The entries of the translation table. *)
Lemma type_map_entries k z :
  zeek_intel_type_map !! k = Some z →
  (k, z) ∈ [ ("domain-name:value", "DOMAIN");
             ("email-addr:value", "EMAIL");
             ("file:name", "FILE_NAME");
             ("file:hashes.MD5", "FILE_HASH");
             ("file:hashes.'SHA-1'", "FILE_HASH");
             ("file:hashes.'SHA-256'", "FILE_HASH");
             ("file:hashes.'SHA-512'", "FILE_HASH");
             ("file:hashes.'SHA3-256'", "FILE_HASH");
             ("file:hashes.'SHA3-512'", "FILE_HASH");
             ("file:hashes.SSDEEP", "FILE_HASH");
             ("file:hashes.TLSH", "FILE_HASH");
             ("ipv4-addr:value", "ADDR");
             ("ipv6-addr:value", "ADDR");
             ("software:name", "SOFTWARE");
             ("url:value", "URL");
             ("user:user_id", "USER_NAME");
             ("user:account_login", "USER_NAME");
             ("x509-certificate:hashes.'SHA-1'", "CERT_HASH") ].
Proof. apply elem_of_list_to_map_2. Qed.

Ltac each_entry H :=
  repeat (apply elem_of_cons in H as [H|H]; [injection H as -> ->|]);
  [..|by apply not_elem_of_nil in H].

(** No object path of the table holds an [=] or starts or ends with
    white space, and no tag is empty. *)
Lemma type_map_paths k z :
  zeek_intel_type_map !! k = Some z →
  Py.contains "=" k = false ∧ Py.lstrip k = k ∧ Py.rstrip k = k ∧ k ≠ ""
  ∧ z ≠ "".
Proof.
  intros H%type_map_entries. each_entry H; by vm_compute.
Qed.

Lemma strip_path_then_space k w :
  Py.lstrip k = k → Py.rstrip k = k → k ≠ "" → Py.lstrip w = "" →
  Py.strip (k +:+ w) = k.
Proof.
  intros Hl Hr Hne Hw. unfold Py.strip.
  destruct k as [|c k]; [done|].
  assert (Hc : Py.isspace c = false).
  { cbn [Py.lstrip] in Hl. destruct (Py.isspace c); [|done].
    exfalso. clear -Hl.
    assert (Hlen : ∀ s, (String.length (Py.lstrip s) ≤ String.length s)%nat).
    { induction s as [|d s IH]; [done|]. cbn [Py.lstrip].
      destruct (Py.isspace d); cbn [String.length]; lia. }
    specialize (Hlen k). rewrite Hl in Hlen. cbn [String.length] in Hlen. lia. }
  rewrite string_app_cons. cbn [Py.lstrip]. rewrite Hc.
  rewrite <- string_app_cons. by rewrite rstrip_skips_space.
Qed.

(** The tags of the Zeek Intel framework that the translator can emit. *)
Lemma type_map_tags k z :
  zeek_intel_type_map !! k = Some z →
  z ∈ ["DOMAIN"; "EMAIL"; "FILE_NAME"; "FILE_HASH"; "ADDR"; "SOFTWARE";
       "URL"; "USER_NAME"; "CERT_HASH"].
Proof.
  intros H%type_map_entries.
  each_entry H; repeat first [by left | right].
Qed.

(** X2.  A pattern written [[path = 'value']], with any white space or none
    on either side of the [=], where the table maps the path to a tag other
    than URL and ADDR and the value holds no [=], is translated to the
    event [NS::intel] that carries the creation time and the id of the
    Indicator, that tag, the value between the quotes as it is, and the
    operation. *)
Theorem X2_quoted_value_is_emitted_verbatim
    ind ns lg path tag value space1 space2 :
  ind_pattern ind
    = "[" +:+ path +:+ space1 +:+ "=" +:+ space2 +:+ "'" +:+ value +:+ "']" →
  Py.lstrip space1 = "" → Py.lstrip space2 = "" →
  is_point_equality_ioc Pattern_inspect (ind_pattern ind) = Ok true →
  zeek_intel_type_map !! path = Some tag →
  tag ≠ "URL" → tag ≠ "ADDR" →
  Py.contains "=" value = false →
  map_indicator_to_broker_event Pattern_inspect (MIndicator ind) ns lg
  = ([], Ok (Some (Event (ns +:+ "::intel")
       [DTimestamp (ind_created ind); DString (ind_id ind);
        DString tag; DString value;
        DString (if bool_decide (ind_x_threatbus_update ind = Some "REMOVE")
                 then "REMOVE" else "ADD")]))).
Proof.
  intros Hpat Hw1 Hw2 Hpoint Hmap HnU HnA Hval.
  destruct (type_map_paths _ _ Hmap) as (Hpath & Hl & Hr & Hk & Hne).
  assert (Hspace : ∀ w, Py.lstrip w = "" → Py.contains "=" w = false).
  { induction w as [|c w IH]; [done|]. cbn [Py.lstrip Py.contains].
    destruct (Py.isspace c) eqn:Hc; [|discriminate].
    intros Hw. rewrite (IH Hw), orb_false_r.
    apply Ascii.eqb_neq. intros ->. by vm_compute in Hc. }
  assert (Hbody : body_of ind
                  = (path +:+ space1)
                    +:+ String "=" (space2 +:+ String "'" value +:+ String "'" "")).
  { rewrite Hpat.
    change ("[" +:+ path +:+ space1 +:+ "=" +:+ space2 +:+ "'" +:+ value +:+ "']")
      with (String "[" (path +:+ space1 +:+ "=" +:+ space2 +:+ "'" +:+ value +:+ "']")).
    replace (path +:+ space1 +:+ "=" +:+ space2 +:+ "'" +:+ value +:+ "']")
      with ((path +:+ space1 +:+ "=" +:+ space2 +:+ "'" +:+ value +:+ "'")
            +:+ String "]" "")
      by (by rewrite !string_app_assoc).
    rewrite slice_inner. by rewrite !string_app_assoc. }
  assert (Hsplit : Py.split "=" (body_of ind)
                   = [path +:+ space1;
                      space2 +:+ String "'" value +:+ String "'" ""]).
  { rewrite Hbody, split_at_sep.
    - f_equal. apply split_no_sep.
      rewrite contains_app, (Hspace _ Hw2).
      change (String "'" value +:+ String "'" "")
        with ("'" +:+ value +:+ "'").
      rewrite !contains_app, Hval. reflexivity.
    - by rewrite contains_app, Hpath, (Hspace _ Hw1). }
  assert (Hunq : unquote (Py.strip (space2 +:+ String "'" value +:+ String "'" ""))
                 = value).
  { assert (Hstr : Py.strip (space2 +:+ String "'" value +:+ String "'" "")
                   = String "'" value +:+ String "'" "").
    { unfold Py.strip. rewrite lstrip_skips_space by done.
      rewrite string_app_cons. cbn [Py.lstrip].
      replace (Py.isspace "'") with false by done.
      rewrite <- string_app_cons. by apply rstrip_keeps_last. }
    rewrite Hstr. unfold unquote. rewrite endswith_last.
    replace (Py.startswith (String "'" value +:+ String "'" "") "'") with true
      by (symmetry; apply startswith_iff; by exists (value +:+ "'")).
    cbn [andb]. apply slice_inner. }
  rewrite (map_indicator_point Pattern_inspect ind ns lg _ _ tag Hpoint Hsplit);
    [| by rewrite strip_path_then_space | done].
  apply String.eqb_neq in HnU, HnA. rewrite HnU, HnA, Hunq. cbn [andb].
  do 7 f_equal.
  destruct (ind_x_threatbus_update ind) as [u|]; [|done].
  unfold Operation_REMOVE. destruct (String.eqb_spec u "REMOVE") as [->|Hu].
  - by rewrite bool_decide_eq_true_2.
  - rewrite bool_decide_eq_false_2; [done | congruence].
Qed.

Lemma unpack2_ok {A} (l : list A) parts :
  Py.unpack2 l = Ok parts → l = [parts.1; parts.2].
Proof. destruct l as [|a [|b [|c l]]]; try done. by intros [= <-]. Qed.

Lemma operation_form ind :
  match ind_x_threatbus_update ind with
  | Some u => if String.eqb u Operation_REMOVE then "REMOVE" else "ADD"
  | None => "ADD"
  end
  = if bool_decide (ind_x_threatbus_update ind = Some "REMOVE")
    then "REMOVE" else "ADD".
Proof.
  destruct (ind_x_threatbus_update ind) as [u|]; [|done].
  unfold Operation_REMOVE. destruct (String.eqb_spec u "REMOVE") as [->|Hu].
  - by rewrite bool_decide_eq_true_2.
  - rewrite bool_decide_eq_false_2; [done | congruence].
Qed.

(** X3.  Whatever the translator is given, an event it returns is named
    [NS::intel] and carries the five values of the tuple it is built
    from: the creation time and the id of the Indicator, one of the ten
    tags of the Zeek Intel framework, a value, and the operation, which is
    REMOVE exactly when the Indicator carries the update REMOVE and ADD
    otherwise.  The translator logs nothing when it returns an event. *)
Theorem X3_shape_of_an_emitted_event msg ns lg effects ev :
  map_indicator_to_broker_event Pattern_inspect msg ns lg
    = (effects, Ok (Some ev)) →
  effects = [] ∧
  ∃ ind tag value,
    msg = MIndicator ind
    ∧ ev = Event (ns +:+ "::intel")
             [DTimestamp (ind_created ind); DString (ind_id ind);
              DString tag; DString value;
              DString (if bool_decide (ind_x_threatbus_update ind = Some "REMOVE")
                       then "REMOVE" else "ADD")]
    ∧ tag ∈ ["DOMAIN"; "EMAIL"; "FILE_NAME"; "FILE_HASH"; "ADDR";
             "SOFTWARE"; "URL"; "USER_NAME"; "CERT_HASH"; "SUBNET"].
Proof.
  destruct msg as [ind| | | |];
    try (unfold map_indicator_to_broker_event; destruct lg; run_steps;
         discriminate).
  unfold map_indicator_to_broker_event.
  destruct (is_point_equality_ioc Pattern_inspect (ind_pattern ind))
    as [[|]|e] eqn:Hpoint.
  2:{ rewrite lift_ok_bind. cbn [negb]. destruct lg; run_steps; discriminate. }
  2:{ rewrite lift_raise_bind. discriminate. }
  rewrite lift_ok_bind. cbn [negb].
  destruct (Py.unpack2 (Py.split "=" (body_of ind))) as [parts|e] eqn:Hparts.
  2:{ rewrite lift_raise_bind. discriminate. }
  apply unpack2_ok in Hparts.
  rewrite lift_ok_bind.
  destruct (zeek_intel_type_map !! Py.strip parts.1) as [z|] eqn:Hmap.
  2:{ destruct lg; run_steps; discriminate. }
  destruct (type_map_paths _ _ Hmap) as (_ & _ & _ & _ & Hne).
  pose proof (type_map_tags _ _ Hmap) as Htag.
  apply String.eqb_neq in Hne. rewrite Hne. rewrite operation_form.
  assert (Hin : ∀ t, t ∈ ["DOMAIN"; "EMAIL"; "FILE_NAME"; "FILE_HASH"; "ADDR";
                          "SOFTWARE"; "URL"; "USER_NAME"; "CERT_HASH"] →
                     t ∈ ["DOMAIN"; "EMAIL"; "FILE_NAME"; "FILE_HASH"; "ADDR";
                          "SOFTWARE"; "URL"; "USER_NAME"; "CERT_HASH"; "SUBNET"]).
  { intros t Ht. rewrite !elem_of_cons in Ht. rewrite !elem_of_cons. tauto. }
  destruct (String.eqb z "URL");
    [|destruct (String.eqb z "ADDR" && _)];
    run_steps; intros [= <- <-]; (split; [done|]);
    eexists ind, _, _; (split; [done|]); (split; [done|]); auto.
  rewrite !elem_of_cons. tauto.
Qed.

(** X4.  When the pattern fails the point-equality check, or has passed
    it and splits at its one [=] into an object path that is not in the
    table, the translator produces no event: with a logger it writes one
    debug entry and returns [None]; with [None] for a logger it raises
    [AttributeError], since these two places call the logger
    unguarded. *)
Theorem X4_no_event_without_a_mapping ind ns :
  is_point_equality_ioc Pattern_inspect (ind_pattern ind) = Ok false
  ∨ (is_point_equality_ioc Pattern_inspect (ind_pattern ind) = Ok true
     ∧ ∃ p v, Py.split "=" (body_of ind) = [p; v]
              ∧ zeek_intel_type_map !! Py.strip p = None) →
  (∃ text,
     map_indicator_to_broker_event Pattern_inspect (MIndicator ind) ns LoggerObj
     = ([Log Debug text], Ok None))
  ∧ map_indicator_to_broker_event Pattern_inspect (MIndicator ind) ns LoggerNone
    = ([], Raise AttributeError).
Proof.
  unfold map_indicator_to_broker_event.
  intros [Hpoint|(Hpoint & p & v & Hsplit & Hmap)]; rewrite Hpoint.
  - rewrite !lift_ok_bind. cbn [negb]. split; [eexists|]; reflexivity.
  - rewrite !lift_ok_bind. cbn [negb]. rewrite Hsplit. cbn [Py.unpack2].
    rewrite !lift_ok_bind. cbn [fst snd]. rewrite Hmap.
    split; [eexists|]; reflexivity.
Qed.

End MoreTranslatorFacts.

(** ** More on the management and sighting translators *)

Section MoreManagementFacts.

Import Mapping.

(** X5.  The management translator returns a Subscription exactly for an
    event whose name, after the conditional stripping of the namespace, is
    [subscribe] and whose arguments are a topic that counts as true and a
    snapshot delta; it returns an Unsubscription exactly for the name
    [unsubscribe] with one argument, a topic that counts as true; it
    returns nothing else. *)
Theorem X5_management_result_iff ev ns :
  (∀ s, map_management_message ev ns = Some (TSubscription s) ↔
        strip_namespace (ev_name ev) ns = "subscribe"
        ∧ ev_args ev = [sub_topic s; sub_snapshot s]
        ∧ truthy (sub_topic s) = true)
  ∧ (∀ u, map_management_message ev ns = Some (TUnsubscription u) ↔
          strip_namespace (ev_name ev) ns = "unsubscribe"
          ∧ ev_args ev = [unsub_topic u]
          ∧ truthy (unsub_topic u) = true)
  ∧ (∀ c, map_management_message ev ns ≠ Some (TOther c)).
Proof.
  unfold map_management_message.
  destruct (String.eqb_spec (strip_namespace (ev_name ev) ns) "subscribe")
    as [Hs|Hs].
  - rewrite Hs. change (String.eqb "subscribe" "unsubscribe") with false.
    cbn [andb].
    destruct (ev_args ev) as [|topic [|delta [|x args]]]; cbn [length Nat.eqb];
      try (split_and!; [intros s; split; [done | by intros (_ & ? & _)]
                       |intros u; split; [done | by intros (? & _)] | done]).
    destruct (truthy topic) eqn:Ht.
    + split_and!; [|intros u; split; [done | by intros (? & _)] | done].
      intros [t d]; cbn [sub_topic sub_snapshot]. split.
      * by intros [= <- <-].
      * by intros (_ & [= <- <-] & _).
    + split_and!; [|intros u; split; [done | by intros (? & _)] | done].
      intros [t d]; cbn [sub_topic sub_snapshot]. split; [done|].
      intros (_ & [= <- <-] & ?). congruence.
  - cbn [andb].
    destruct (String.eqb_spec (strip_namespace (ev_name ev) ns) "unsubscribe")
      as [Hu|Hu].
    + cbn [andb].
      destruct (ev_args ev) as [|topic [|x args]]; cbn [length Nat.eqb];
        try (split_and!; [intros s; split; [done | by intros (? & _)]
                         |intros u; split; [done | by intros (_ & ? & _)] | done]).
      destruct (truthy topic) eqn:Ht.
      * split_and!; [intros s; split; [done | by intros (? & _)] | | done].
        intros [t]; cbn [unsub_topic]. split.
        -- by intros [= <-].
        -- by intros (_ & [= <-] & _).
      * split_and!; [intros s; split; [done | by intros (? & _)] | | done].
        intros [t]; cbn [unsub_topic]. split; [done|].
        intros (_ & [= <-] & ?). congruence.
    + cbn [andb].
      split_and!; [intros s; split; [done | by intros (? & _)]
                  |intros u; split; [done | by intros (? & _)] | done].
Qed.

Variable py_str : data → string.
Variable stix2_Sighting : data → string → data → result Sighting.

(** X6.  For an event whose name, after the conditional stripping of the
    namespace, is [sighting] and that has three arguments, the sighting
    translator hands the first argument, [str] of the second and the third
    to the constructor of the stix2 library: it returns the Sighting that
    the constructor builds, and raises what the constructor raises when
    it rejects these values; it logs nothing.  For any other event it
    returns [None] without calling the constructor, with one debug entry
    when it has a logger and without raising when it has none. *)
Theorem X6_sighting_result ev ns lg :
  (∀ timestamp ioc_id context,
     strip_namespace (ev_name ev) ns = "sighting" →
     ev_args ev = [timestamp; ioc_id; context] →
     map_broker_event_to_sighting py_str stix2_Sighting ev ns lg
     = ([], match stix2_Sighting timestamp (py_str ioc_id) context with
            | Ok s => Ok (Some s)
            | Raise e => Raise e
            end))
  ∧ (strip_namespace (ev_name ev) ns ≠ "sighting"
     ∨ length (ev_args ev) ≠ 3%nat →
     map_broker_event_to_sighting py_str stix2_Sighting ev ns lg
     = (match lg with
        | LoggerObj =>
            [Log Debug ("Discarding Broker event with unknown type: "
                        +:+ strip_namespace (ev_name ev) ns)]
        | LoggerNone => []
        end, Ok None)).
Proof.
  unfold map_broker_event_to_sighting. split.
  - intros timestamp ioc_id context -> ->.
    change (negb ("sighting" =? "sighting")%string
            || negb (Nat.eqb (length [timestamp; ioc_id; context]) 3))
      with false. cbv iota.
    by destruct (stix2_Sighting timestamp (py_str ioc_id) context).
  - intros H.
    assert (Hc : negb (String.eqb (strip_namespace (ev_name ev) ns) "sighting")
                 || negb (Nat.eqb (length (ev_args ev)) 3) = true).
    { apply orb_true_iff. destruct H as [H|H].
      - left. apply negb_true_iff. by apply String.eqb_neq.
      - right. apply negb_true_iff. by apply Nat.eqb_neq. }
    rewrite Hc. by destruct lg.
Qed.

End MoreManagementFacts.

(** ** More on the Zeek plugin *)

Section MoreSubscriptionFacts.

Variable randbelow : nat → nat.

(** What a call that returns after another has returned did. *)
Lemma bind_ok_inv {E A B} (m : run E A) (k : A → run E B) effects b :
  (m ≫= k) = (effects, Ok b) →
  ∃ e1 a e2, m = (e1, Ok a) ∧ k a = (e2, Ok b) ∧ effects = e1 ++ e2.
Proof.
  unfold mbind, run_mbind, bind. destruct m as [e1 [a|e]]; [|discriminate].
  destruct (k a) as [e2 r] eqn:Hk. intros [= <- ->]. by exists e1, a, e2.
Qed.

(** X7.  Unsubscribing the p2p-topic that a Subscription to [t] was
    acknowledged with hands the topic [t] and the queue of that
    subscription to the unsubscribe callback and removes the entry of the
    p2p-topic; when the p2p-topic was not in use before the Subscription,
    the map is again the one before it. *)
Theorem X7_unsubscribe_undoes_subscribe ns t snapshot st :
  let suffix := Zeek.rand_string_from randbelow (Zeek.draws_made st) 10 in
  let p2p_topic := t +:+ suffix in
  ∃ effects st1 st2,
    Zeek.manage_subscription randbelow ns
      (TSubscription (mkSubscription (DString t) snapshot)) st
    = (effects, Ok st1)
    ∧ SubscribeCallback (DString t) (Zeek.queues_made st) snapshot ∈ effects
    ∧ Zeek.manage_subscription randbelow ns
        (TUnsubscription (mkUnsubscription (DString p2p_topic))) st1
      = ([Log Info "Received unsubscription from topic";
          UnsubscribeCallback t (Zeek.queues_made st)], Ok st2)
    ∧ Zeek.subscriptions st2 = delete p2p_topic (Zeek.subscriptions st)
    ∧ (Zeek.subscriptions st !! p2p_topic = None →
       Zeek.subscriptions st2 = Zeek.subscriptions st).
Proof.
  intros suffix p2p_topic.
  exists [Log Info "Received subscription for topic";
          EpPublish "threatbus/manage"
            (Event (ns +:+ "::subscription_acknowledged") [DString p2p_topic]);
          SubscribeCallback (DString t) (Zeek.queues_made st) snapshot],
         (Zeek.mkState (<[p2p_topic := Zeek.queues_made st]> (Zeek.subscriptions st))
                       (S (Zeek.queues_made st)) (Zeek.draws_made st + 10)),
         (Zeek.mkState
            (delete p2p_topic
               (<[p2p_topic := Zeek.queues_made st]> (Zeek.subscriptions st)))
            (S (Zeek.queues_made st)) (Zeek.draws_made st + 10)).
  split; [reflexivity|]. split; [do 2 right; by left|].
  assert (Hlen : Z.of_nat Zeek.rand_suffix_length = Py.len suffix).
  { unfold Py.len, suffix. by rewrite rand_string_from_length. }
  split.
  - unfold Zeek.manage_subscription at 1. cbn [unsub_topic Zeek.as_str].
    rewrite lift_ok_bind. cbn [Zeek.subscriptions Zeek.queues_made Zeek.draws_made].
    rewrite lookup_insert_eq.
    rewrite Hlen. subst p2p_topic. rewrite slice_without_suffix.
    unfold dict_del. rewrite lookup_insert_eq. reflexivity.
  - cbn [Zeek.subscriptions]. split; [apply delete_insert_eq|].
    intros Hnone. rewrite delete_insert_eq. by apply delete_id.
Qed.

Lemma manage_subscription_fresh ns task st effects st' :
  queues_fresh st →
  Zeek.manage_subscription randbelow ns task st = (effects, Ok st') →
  queues_fresh st'.
Proof.
  intros [Hlt Hinj]. destruct task as [s|u|c]; unfold Zeek.manage_subscription.
  - cbv beta iota zeta delta [Zeek.rand_string Zeek.new_queue].
    destruct (sub_topic s) as [| | |topic| | |]; cbn [Zeek.as_str];
      try (rewrite lift_raise_bind; cbv [mbind run_mbind bind emit app];
           discriminate).
    rewrite lift_ok_bind. intros [= _ <-]. split; cbn [Zeek.subscriptions
      Zeek.queues_made].
    + intros p q [[_ <-]|[_ Hq]]%lookup_insert_Some; [lia|].
      apply Hlt in Hq. lia.
    + intros p1 p2 q [[<- <-]|[Hn1 H1]]%lookup_insert_Some
                     [[<- Hq]|[Hn2 H2]]%lookup_insert_Some; try done.
      * apply Hlt in H2. lia.
      * apply Hlt in H1. lia.
      * eauto.
  - destruct (unsub_topic u) as [| | |topic| | |]; cbn [Zeek.as_str];
      try (rewrite lift_raise_bind; cbv [mbind run_mbind bind emit app];
           discriminate).
    rewrite lift_ok_bind.
    destruct (Zeek.subscriptions st !! topic) as [q0|] eqn:Hq0.
    + unfold dict_del. rewrite Hq0. intros [= _ <-].
      split; cbn [Zeek.subscriptions Zeek.queues_made].
      * intros p q [_ Hq]%lookup_delete_Some. eauto.
      * intros p1 p2 q [_ H1]%lookup_delete_Some [_ H2]%lookup_delete_Some.
        eauto.
    + by intros [= _ <-].
  - by intros [= _ <-].
Qed.

(** X8.  Along any run of [manage] that does not raise, whatever events
    arrive, every queue in the map of the plugin has been created by the
    plugin and no two p2p-topics hold the same queue; in particular this
    holds for every run from the empty map. *)
Theorem X8_queues_stay_fresh ns received st effects st' :
  queues_fresh st →
  Zeek.manage randbelow ns received st = (effects, Ok st') →
  queues_fresh st'.
Proof.
  revert st effects. induction received as [|ev received IH];
    intros st effects Hfresh.
  - by intros [= _ <-].
  - cbn [Zeek.manage].
    intros (e1 & st1 & e2 & H1 & H2 & _)%bind_ok_inv.
    apply (IH st1 e2); [|done].
    unfold Zeek.manage_event in H1.
    destruct (Mapping.map_management_message ev ns) as [task|].
    + by apply (manage_subscription_fresh ns task st e1).
    + by injection H1 as _ <-.
Qed.

End MoreSubscriptionFacts.

(** ** The outbound loop of the Zeek plugin *)

Section MorePublishFacts.

Variable map_to_broker : message → string → option event.

Implicit Types (subs : gmap string nat) (queues : gmap nat (list message)).
Implicit Types (fd q : nat) (ready : list nat).






End MorePublishFacts.

(** ** More on the registry of the backbones *)

Section MoreBackboneFacts.

Implicit Types (subs : gmap string (gset nat)) (q : nat) (msg : message).
Implicit Types (topics : list string) (topic t : string).

Lemma lookup_total_elem_dom subs t q : q ∈ subs !!! t → t ∈ dom subs.
Proof.
  rewrite lookup_total_alt, elem_of_dom.
  destruct (subs !! t); [by eexists | by intros ?%not_elem_of_empty].
Qed.

Lemma elem_of_matching_topics topic q subs t :
  t ∈ matching_topics topic q subs ↔
  Py.startswith topic t = true ∧ q ∈ subs !!! t.
Proof.
  unfold matching_topics. rewrite elem_of_filter. split; [tauto|].
  intros [? ?]. split_and!; [done..|]. by eapply lookup_total_elem_dom.
Qed.

Lemma enqueued_keys q msg (f : string → gset nat) (keys : list string) :
  enqueued q (keys ≫= λ t, elements (f t) ≫= λ outq, [Put outq msg])
  = replicate (length (filter (λ t, q ∈ f t) keys)) msg.
Proof.
  induction keys as [|k keys IH]; [done|].
  rewrite bind_cons, enqueued_app, enqueued_inner, IH by apply NoDup_elements.
  rewrite filter_cons.
  destruct (decide (q ∈ f k)) as [Hq|Hq].
  - by rewrite decide_True by (by apply elem_of_elements).
  - by rewrite decide_False by (by rewrite elem_of_elements).
Qed.

(** A queue gets a message once for each topic of the registry that is a
    prefix of the topic of the message and holds the queue. *)
Lemma enqueued_put_to_subscribers topic msg subs q :
  enqueued q (put_to_subscribers topic msg subs)
  = replicate (size (matching_topics topic q subs)) msg.
Proof.
  unfold put_to_subscribers.
  rewrite (enqueued_keys q msg (λ t, subs !!! t)). f_equal.
  rewrite <- (size_list_to_set (C:=gset string)).
  - f_equal. apply set_eq. intros t.
    rewrite elem_of_list_to_set, !list_elem_of_filter, elem_of_matching_topics.
    split; [tauto|]. intros [? Hq]. split_and!; [done..|].
    apply lookup_total_elem_dom, elem_of_dom in Hq as [X HX].
    apply list_elem_of_fmap. exists (t, X). split; [done|].
    by apply elem_of_map_to_list.
  - do 2 apply NoDup_filter. apply NoDup_fst_map_to_list.
Qed.

Lemma enqueued_provision_msg msg subs q :
  enqueued q (Inmem.provision_msg msg subs)
  = replicate (size (matching_topics (Inmem.topic_of msg) q subs)) msg.
Proof. apply enqueued_put_to_subscribers. Qed.

(** X10.  Both backbones put a message into a queue once for every topic
    of the registry that is a prefix of the topic of the message and holds
    the queue: a queue subscribed under several such prefixes gets the
    message several times, a queue under none does not get it. *)
Theorem X10_one_delivery_per_matching_topic msg subs q :
  enqueued q (Inmem.provision_msg msg subs)
  = replicate (size (matching_topics (Inmem.topic_of msg) q subs)) msg
  ∧ ∀ topic,
      enqueued q (Rabbitmq.provision topic msg subs).1
      = replicate (size (matching_topics topic q subs)) msg.
Proof.
  split; [apply enqueued_provision_msg|].
  intros topic. apply enqueued_put_to_subscribers.
Qed.

(** X11.  The in-memory backbone keeps the order of the producer: a queue
    that is registered under exactly one topic receives, of the messages
    that arrive on the inbound queue, those whose topic has that topic as a
    prefix, each once and in the order of their arrival. *)
Theorem X11_fifo_for_a_single_subscription inq subs q t0 :
  q ∈ subs !!! t0 → (∀ t, q ∈ subs !!! t → t = t0) →
  enqueued q (Inmem.provision inq subs)
  = filter (λ msg, Py.startswith (Inmem.topic_of msg) t0 = true) inq.
Proof.
  intros Hq Honly. unfold Inmem.provision.
  induction inq as [|msg inq IH]; [done|].
  rewrite bind_cons, enqueued_app, IH, filter_cons, enqueued_provision_msg.
  destruct (decide (Py.startswith (Inmem.topic_of msg) t0 = true)) as [Hm|Hm].
  - replace (matching_topics (Inmem.topic_of msg) q subs) with ({[t0]} : gset string).
    + by rewrite size_singleton.
    + apply set_eq. intros t. rewrite elem_of_singleton, elem_of_matching_topics.
      split; [by intros -> | by intros [_ ?%Honly]].
  - replace (matching_topics (Inmem.topic_of msg) q subs) with (∅ : gset string).
    + by rewrite size_empty.
    + apply set_eq. intros t. rewrite elem_of_matching_topics.
      split; [by intros ?%not_elem_of_empty|].
      intros [Hs Ht]. apply Honly in Ht as ->. done.
Qed.

End MoreBackboneFacts.

(** ** Subscribing and unsubscribing in the backbones *)

Section MoreRegistryFacts.

Implicit Types (subs : gmap string (gset nat)) (q : nat) (msg : message).
Implicit Types (topics : list string) (topic t : string).

Lemma subscribe_lookup topics q subs t :
  Inmem.subscribe topics q subs !! t
  = if decide (t ∈ topics) then Some (subs !!! t ∪ {[q]}) else subs !! t.
Proof.
  unfold Inmem.subscribe. revert subs.
  induction topics as [|topic topics IH]; intros subs.
  - cbn [foldl]. rewrite decide_False; [done | apply not_elem_of_nil].
  - cbn [foldl]. rewrite IH.
    destruct (decide (t = topic)) as [->|Hne].
    + rewrite (decide_True (P := topic ∈ topic :: topics)) by left.
      rewrite lookup_total_insert_eq, lookup_insert_eq.
      destruct (decide (topic ∈ topics)); [|done]. f_equal. set_solver.
    + rewrite lookup_total_insert_ne, lookup_insert_ne by done.
      destruct (decide (t ∈ topics)) as [Hin|Hin].
      * by rewrite decide_True by (by right).
      * rewrite decide_False; [done|]. rewrite elem_of_cons. tauto.
Qed.

(** X12.  After [subscribe(topics, q)] of the in-memory backbone a queue is
    under a topic exactly when it was there before or it is [q] and the
    topic is one of [topics]; so a message whose topic has one of [topics]
    as a prefix is put into [q]. *)
Theorem X12_subscribe_adds_the_queue topics q subs :
  (∀ t q', q' ∈ Inmem.subscribe topics q subs !!! t ↔
           q' ∈ subs !!! t ∨ (q' = q ∧ t ∈ topics))
  ∧ (∀ msg t, t ∈ topics → Py.startswith (Inmem.topic_of msg) t = true →
              Put q msg ∈ Inmem.provision_msg msg (Inmem.subscribe topics q subs)).
Proof.
  assert (Hmem : ∀ t q', q' ∈ Inmem.subscribe topics q subs !!! t ↔
                         q' ∈ subs !!! t ∨ (q' = q ∧ t ∈ topics)).
  { intros t q'. rewrite (lookup_total_alt (Inmem.subscribe _ _ _)).
    rewrite subscribe_lookup.
    destruct (decide (t ∈ topics)) as [Hin|Hin]; cbn [default].
    - set_solver.
    - rewrite <- lookup_total_alt. tauto. }
  split; [done|]. intros msg t Hin Hstart.
  unfold Inmem.provision_msg. right.
  apply elem_of_put_to_subscribers. split; [done|].
  exists t, (subs !!! t ∪ {[q]}). split_and!.
  - by rewrite subscribe_lookup, decide_True.
  - set_solver.
  - by apply startswith_iff.
Qed.

Lemma unsubscribe_lookup_total topics q subs subs' t :
  Inmem.unsubscribe topics q subs = Ok subs' →
  subs' !!! t = if decide (t ∈ topics) then subs !!! t ∖ {[q]} else subs !!! t.
Proof.
  rewrite unsubscribe_closed. intros [= <-].
  rewrite (lookup_total_alt (foldl _ _ _)), foldl_discard_lookup.
  destruct (decide (t ∈ topics)); [done|]. by rewrite <- lookup_total_alt.
Qed.

(** Who gets a message depends only on the sets of queues under the
    topics. *)
Lemma enqueued_same_sets topic msg subs1 subs2 q :
  (∀ t, q ∈ subs1 !!! t ↔ q ∈ subs2 !!! t) →
  enqueued q (put_to_subscribers topic msg subs1)
  = enqueued q (put_to_subscribers topic msg subs2).
Proof.
  intros H. rewrite !enqueued_put_to_subscribers. do 2 f_equal.
  apply set_eq. intros t. rewrite !elem_of_matching_topics. by rewrite H.
Qed.

(** X13.  After [unsubscribe(topics, q)] of the in-memory backbone a queue
    is under a topic exactly when it was there before and it is not [q]
    under one of [topics].  What any other queue receives is unchanged;
    and when [topics] holds every topic under which [q] was registered,
    [q] receives nothing any more. *)
Theorem X13_unsubscribe_removes_only_the_queue topics q subs subs' :
  Inmem.unsubscribe topics q subs = Ok subs' →
  (∀ t q', q' ∈ subs' !!! t ↔ q' ∈ subs !!! t ∧ ¬ (q' = q ∧ t ∈ topics))
  ∧ (∀ q' msg, q' ≠ q →
       enqueued q' (Inmem.provision_msg msg subs')
       = enqueued q' (Inmem.provision_msg msg subs))
  ∧ ((∀ t, q ∈ subs !!! t → t ∈ topics) →
     ∀ msg, enqueued q (Inmem.provision_msg msg subs') = []).
Proof.
  intros Hun.
  assert (Hmem : ∀ t q', q' ∈ subs' !!! t ↔
                         q' ∈ subs !!! t ∧ ¬ (q' = q ∧ t ∈ topics)).
  { intros t q'. rewrite (unsubscribe_lookup_total _ _ _ _ t Hun).
    destruct (decide (t ∈ topics)); set_solver. }
  split_and!; [done| |].
  - intros q' msg Hne. unfold Inmem.provision_msg.
    change (enqueued q' (?e :: ?l)) with (enqueued q' ([e] ++ l)).
    rewrite !enqueued_app. f_equal. apply enqueued_same_sets.
    intros t. rewrite Hmem. tauto.
  - intros Hall msg. rewrite enqueued_provision_msg.
    replace (matching_topics (Inmem.topic_of msg) q subs') with (∅ : gset string);
      [by rewrite size_empty|].
    apply set_eq. intros t. rewrite elem_of_matching_topics, Hmem.
    split; [by intros ?%not_elem_of_empty|].
    intros (_ & Hq & Hno). exfalso. apply Hno. split; [done | by apply Hall].
Qed.

(** X14.  Subscribing a queue to topics under which it was not registered
    and unsubscribing it from them again leaves every topic with the set
    of queues it had, so every queue receives what it received before; when
    all the topics were already in the registry, the registry is again the
    one before. *)
Theorem X14_unsubscribe_undoes_subscribe_inmem topics q subs :
  (∀ t, t ∈ topics → q ∉ subs !!! t) →
  ∃ subs',
    Inmem.unsubscribe topics q (Inmem.subscribe topics q subs) = Ok subs'
    ∧ (∀ t, subs' !!! t = subs !!! t)
    ∧ (∀ q' msg, enqueued q' (Inmem.provision_msg msg subs')
                 = enqueued q' (Inmem.provision_msg msg subs))
    ∧ ((∀ t, t ∈ topics → t ∈ dom subs) → subs' = subs).
Proof.
  intros Habs.
  exists (foldl (discard q) (Inmem.subscribe topics q subs) topics).
  assert (Hun := unsubscribe_closed topics q (Inmem.subscribe topics q subs)).
  assert (Hsets : ∀ t, foldl (discard q) (Inmem.subscribe topics q subs) topics
                       !!! t = subs !!! t).
  { intros t. rewrite (unsubscribe_lookup_total _ _ _ _ t Hun).
    rewrite (lookup_total_alt (Inmem.subscribe _ _ _)), subscribe_lookup.
    destruct (decide (t ∈ topics)) as [Hin|Hin]; cbn [default].
    - specialize (Habs t Hin). set_solver.
    - by rewrite <- lookup_total_alt. }
  split_and!; [done | done | |].
  - intros q' msg. unfold Inmem.provision_msg.
    change (enqueued q' (?e :: ?l)) with (enqueued q' ([e] ++ l)).
    rewrite !enqueued_app. f_equal. apply enqueued_same_sets.
    intros t. by rewrite Hsets.
  - intros Hdom. apply map_eq. intros t.
    rewrite foldl_discard_lookup.
    destruct (decide (t ∈ topics)) as [Hin|Hin].
    + rewrite (lookup_total_alt (Inmem.subscribe _ _ _)), subscribe_lookup.
      rewrite decide_True by done. cbn [default].
      destruct (proj1 (elem_of_dom _ _) (Hdom t Hin)) as [X HX].
      specialize (Habs t Hin). rewrite HX. f_equal.
      rewrite lookup_total_alt, HX in Habs |- *. cbn [default] in *. set_solver.
    + by rewrite subscribe_lookup, decide_False.
Qed.

(** X15.  Subscriptions of the in-memory backbone can be made in any
    order: two calls of [subscribe] give the same registry whichever comes
    first. *)
Theorem X15_subscribe_commutes topics1 q1 topics2 q2 subs :
  Inmem.subscribe topics1 q1 (Inmem.subscribe topics2 q2 subs)
  = Inmem.subscribe topics2 q2 (Inmem.subscribe topics1 q1 subs).
Proof.
  apply map_eq. intros t. rewrite !subscribe_lookup.
  rewrite !(lookup_total_alt (Inmem.subscribe _ _ _)), !subscribe_lookup.
  destruct (decide (t ∈ topics1)), (decide (t ∈ topics2)); cbn [default];
    try done; f_equal; set_solver.
Qed.

(** X16.  In the durable backbone [unsubscribe(topic, q)] never raises and
    leaves under the topic the queues it had but [q]; after
    [subscribe(topic, q)] it gives back the registry before the
    subscription when the topic was in the registry without [q], and the
    registry with the topic entered with the empty set when the topic was
    not in the registry. *)
Theorem X16_rabbitmq_unsubscribe_after_subscribe topic q subs :
  Rabbitmq.unsubscribe topic q subs
    = Ok (<[topic := subs !!! topic ∖ {[q]}]> subs)
  ∧ Rabbitmq.unsubscribe topic q (Rabbitmq.subscribe topic q subs)
    = Ok (<[topic := subs !!! topic ∖ {[q]}]> subs)
  ∧ (∀ X, subs !! topic = Some X → q ∉ X →
       Rabbitmq.unsubscribe topic q (Rabbitmq.subscribe topic q subs) = Ok subs)
  ∧ (subs !! topic = None →
       Rabbitmq.unsubscribe topic q (Rabbitmq.subscribe topic q subs)
       = Ok (<[topic := ∅]> subs)).
Proof.
  assert (Hun : ∀ s, Rabbitmq.unsubscribe topic q s
                     = Ok (<[topic := s !!! topic ∖ {[q]}]> s)).
  { intros s. unfold Rabbitmq.unsubscribe, touch, set_remove.
    rewrite lookup_total_insert_eq.
    destruct (decide (q ∈ s !!! topic)) as [Hq|Hq]; cbn [mbind result_mbind].
    - by rewrite insert_insert_eq.
    - do 2 f_equal. set_solver. }
  assert (Hround : Rabbitmq.unsubscribe topic q (Rabbitmq.subscribe topic q subs)
                   = Ok (<[topic := subs !!! topic ∖ {[q]}]> subs)).
  { rewrite Hun. unfold Rabbitmq.subscribe.
    rewrite lookup_total_insert_eq, insert_insert_eq. do 2 f_equal. set_solver. }
  split_and!; [done | done | |].
  - intros X HX Hq. rewrite Hround. f_equal. apply insert_id.
    rewrite HX. f_equal. rewrite lookup_total_alt, HX. cbn. set_solver.
  - intros Hnone. rewrite Hround. do 2 f_equal.
    rewrite lookup_total_alt, Hnone. cbn. set_solver.
Qed.

End MoreRegistryFacts.

(** ** Edges *)

Section EdgeFacts.

Import Mapping.

(** X17.  What the point-equality check accepts: patterns for which the
    inspector reports no observation operator, no qualifier and one object
    type whose first comparison has the operator [=], however many
    comparisons follow it under that type. *)
Theorem X17_what_the_point_equality_check_accepts
    (Pattern_inspect : string → result pattern_data) pattern_str :
  is_point_equality_ioc Pattern_inspect pattern_str = Ok true ↔
  ∃ object_type c cs,
    Pattern_inspect pattern_str = Ok (mkPatternData [(object_type, c :: cs)] [] [])
    ∧ comparison_op c = "=".
Proof.
  unfold is_point_equality_ioc. split.
  - destruct (Pattern_inspect pattern_str) as [[comps ops quals]|e];
      [|discriminate].
    cbn [mbind result_mbind observation_ops qualifiers comparisons].
    destruct ops as [|? ?]; [|discriminate].
    destruct quals as [|? ?]; [|discriminate].
    destruct comps as [|[ty l] [|? ?]]; [discriminate| |discriminate].
    cbn. unfold dict_index. cbn [List.find fst snd].
    rewrite String.eqb_refl. cbn.
    destruct l as [|c cs]; [discriminate|]. cbn.
    intros [= Hop%String.eqb_eq]. by exists ty, c, cs.
  - intros (ty & c & cs & -> & Hop). cbn. unfold dict_index.
    cbn [List.find fst snd]. rewrite String.eqb_refl. cbn.
    rewrite Hop. done.
Qed.

(** X18.  A subscribe event whose topic counts as true and is not a string
    ends the loop of [manage] with [TypeError]: after the log entry nothing
    is acknowledged, and the events behind it are not handled. *)
Theorem X18_non_string_topic_ends_manage
    (randbelow : nat → nat) ns name topic snapshot_delta later st :
  strip_namespace name ns = "subscribe" →
  truthy topic = true → (∀ s, topic ≠ DString s) →
  Zeek.manage randbelow ns (Event name [topic; snapshot_delta] :: later) st
  = ([Log Info "Received subscription for topic"], Raise TypeError).
Proof.
  intros Hname Htopic Hns. cbn [Zeek.manage]. unfold Zeek.manage_event.
  unfold map_management_message. cbn [ev_name ev_args]. rewrite Hname.
  cbn [length]. change (String.eqb "subscribe" "subscribe") with true.
  cbn [Nat.eqb andb]. rewrite Htopic.
  unfold Zeek.manage_subscription.
  cbv beta iota zeta delta [Zeek.rand_string Zeek.new_queue].
  cbn [sub_topic].
  destruct topic as [| | |s| | |]; try (by destruct (Hns s)); reflexivity.
Qed.

(** X19.  A queue subscribed under the empty topic receives every message,
    whatever its topic, from both backbones; in the in-memory backbone so
    does a queue subscribed under [tenzir/threatbus/]. *)
Theorem X19_empty_topic_receives_everything
    (subs : gmap string (gset nat)) q msg :
  (q ∈ subs !!! "" →
     Put q msg ∈ Inmem.provision_msg msg subs
     ∧ ∀ topic, Put q msg ∈ (Rabbitmq.provision topic msg subs).1)
  ∧ (q ∈ subs !!! "tenzir/threatbus/" →
     Put q msg ∈ Inmem.provision_msg msg subs).
Proof.
  assert (Hput : ∀ topic t, q ∈ subs !!! t → (∃ r, topic = t +:+ r) →
                            Put q msg ∈ put_to_subscribers topic msg subs).
  { intros topic t Hq Hpre. apply elem_of_put_to_subscribers. split; [done|].
    rewrite lookup_total_alt in Hq.
    destruct (subs !! t) as [X|] eqn:HX; [|by apply not_elem_of_empty in Hq].
    by exists t, X. }
  split.
  - intros Hq. split; [|intros topic]; right; apply (Hput _ ""); try done;
      by eexists.
  - intros Hq. right. apply (Hput _ "tenzir/threatbus/"); [done|].
    by eexists.
Qed.

End EdgeFacts.

(** ** Instances *)

Section Instances.

Import Mapping.

Lemma X1_value_error_iff_not_one_equals_sign_witness :
  (map_indicator_to_broker_event
     (λ _, Ok (inspected "url" [(["value"], "=", "'a=b'")]))
     (MIndicator (mkIndicator "indicator--1" 0 "[url:value = 'a=b']" None))
     "Tb" LoggerObj).2 = Raise ValueError
  ↔ Py.count "="
      (Py.slice
         (ind_pattern (mkIndicator "indicator--1" 0 "[url:value = 'a=b']" None))
         (Some 1) (Some (-1))) ≠ 1%nat.
Proof.
  apply (X1_value_error_iff_not_one_equals_sign
           (λ _, Ok (inspected "url" [(["value"], "=", "'a=b'")]))
           (mkIndicator "indicator--1" 0 "[url:value = 'a=b']" None)
           "Tb" LoggerObj).
  vm_compute. reflexivity.
Defined.

Lemma X2_quoted_value_is_emitted_verbatim_witness :
  map_indicator_to_broker_event
    (λ _, Ok (inspected "domain-name" [(["value"], "=", "'evil.com'")]))
    (MIndicator (mkIndicator "ind-1" 0 "[domain-name:value = 'evil.com']" None))
    "Tb" LoggerObj
  = ([], Ok (Some (Event ("Tb" +:+ "::intel")
       [DTimestamp 0; DString "ind-1"; DString "DOMAIN"; DString "evil.com";
        DString (if bool_decide (@None string = Some "REMOVE")
                 then "REMOVE" else "ADD")]))).
Proof.
  apply (X2_quoted_value_is_emitted_verbatim
           (λ _, Ok (inspected "domain-name" [(["value"], "=", "'evil.com'")]))
           (mkIndicator "ind-1" 0 "[domain-name:value = 'evil.com']" None)
           "Tb" LoggerObj "domain-name:value" "DOMAIN" "evil.com" " " " ");
    first [discriminate | vm_compute; reflexivity].
Defined.

Lemma X3_shape_of_an_emitted_event_witness :
  @nil effect = [] ∧
  ∃ ind tag value,
    MIndicator (mkIndicator "ind-1" 0 "[ipv4-addr:value = '10.0.0.0/8']"
                  (Some "REMOVE")) = MIndicator ind
    ∧ Event "Tb::intel"
        [DTimestamp 0; DString "ind-1"; DString "SUBNET";
         DString "10.0.0.0/8"; DString "REMOVE"]
      = Event ("Tb" +:+ "::intel")
          [DTimestamp (ind_created ind); DString (ind_id ind);
           DString tag; DString value;
           DString (if bool_decide (ind_x_threatbus_update ind = Some "REMOVE")
                    then "REMOVE" else "ADD")]
    ∧ tag ∈ ["DOMAIN"; "EMAIL"; "FILE_NAME"; "FILE_HASH"; "ADDR";
             "SOFTWARE"; "URL"; "USER_NAME"; "CERT_HASH"; "SUBNET"].
Proof.
  apply (X3_shape_of_an_emitted_event
           (λ _, Ok (inspected "ipv4-addr" [(["value"], "=", "'10.0.0.0/8'")]))
           (MIndicator (mkIndicator "ind-1" 0 "[ipv4-addr:value = '10.0.0.0/8']"
                          (Some "REMOVE")))
           "Tb" LoggerObj).
  vm_compute. reflexivity.
Defined.

Lemma X4_no_event_without_a_mapping_witness :
  (∃ text,
     map_indicator_to_broker_event
       (λ _, Ok (mkPatternData
                   [("domain-name", [(["value"], "=", "'a.com'")]);
                    ("url", [(["value"], "=", "'x'")])] ["AND"] []))
       (MIndicator (mkIndicator "ind-1" 0
                      "[domain-name:value = 'a.com'] AND [url:value = 'x']" None))
       "Tb" LoggerObj
     = ([Log Debug text], Ok None))
  ∧ map_indicator_to_broker_event
      (λ _, Ok (mkPatternData
                  [("domain-name", [(["value"], "=", "'a.com'")]);
                   ("url", [(["value"], "=", "'x'")])] ["AND"] []))
      (MIndicator (mkIndicator "ind-1" 0
                     "[domain-name:value = 'a.com'] AND [url:value = 'x']" None))
      "Tb" LoggerNone
    = ([], Raise AttributeError).
Proof.
  apply (X4_no_event_without_a_mapping
           (λ _, Ok (mkPatternData
                       [("domain-name", [(["value"], "=", "'a.com'")]);
                        ("url", [(["value"], "=", "'x'")])] ["AND"] []))
           (mkIndicator "ind-1" 0
              "[domain-name:value = 'a.com'] AND [url:value = 'x']" None) "Tb").
  left. reflexivity.
Defined.

Lemma X8_queues_stay_fresh_witness :
  queues_fresh
    (Zeek.mkState {["threatbus/intelabcdefghij" := 0%nat]} 1 10).
Proof.
  apply (X8_queues_stay_fresh (λ k : nat, k) "Tb"
           [Event "Tb::subscribe" [DString "threatbus/intel"; DTimespan 0]]
           (Zeek.mkState ∅ 0 0)
           [Log Info "Received subscription for topic";
            EpPublish "threatbus/manage"
              (Event "Tb::subscription_acknowledged"
                     [DString "threatbus/intelabcdefghij"]);
            SubscribeCallback (DString "threatbus/intel") 0 (DTimespan 0)]).
  - split; cbn [Zeek.subscriptions]; intros *; by rewrite lookup_empty.
  - vm_compute. reflexivity.
Defined.


Lemma X11_fifo_for_a_single_subscription_witness :
  enqueued 0
    (Inmem.provision [MSnapshotRequest "r1"; MSnapshotEnvelope "e1"]
       {["tenzir/threatbus/snapshotr" := {[0%nat]}]})
  = filter (λ msg, Py.startswith (Inmem.topic_of msg)
                     "tenzir/threatbus/snapshotr" = true)
      [MSnapshotRequest "r1"; MSnapshotEnvelope "e1"].
Proof.
  apply (X11_fifo_for_a_single_subscription
           [MSnapshotRequest "r1"; MSnapshotEnvelope "e1"]
           {["tenzir/threatbus/snapshotr" := {[0%nat]}]} 0%nat
           "tenzir/threatbus/snapshotr").
  - rewrite lookup_total_singleton_eq. by apply elem_of_singleton.
  - intros t. destruct (decide (t = "tenzir/threatbus/snapshotr")) as [->|Hne];
      [done|].
    rewrite lookup_total_singleton_ne by done.
    by intros ?%not_elem_of_empty.
Defined.

Lemma X13_unsubscribe_removes_only_the_queue_witness :
  enqueued 0
    (Inmem.provision_msg (MOther "Intel" true)
       (foldl (discard 0) {["threatbus/intel" := {[0%nat]}]} ["threatbus/intel"]))
  = [].
Proof.
  refine (proj2 (proj2 (X13_unsubscribe_removes_only_the_queue
                          ["threatbus/intel"] 0%nat
                          {["threatbus/intel" := {[0%nat]}]} _
                          (unsubscribe_closed _ _ _))) _ (MOther "Intel" true)).
  intros t. destruct (decide (t = "threatbus/intel")) as [->|Hne];
    [intros _; by left|].
  rewrite lookup_total_singleton_ne by done. by intros ?%not_elem_of_empty.
Defined.

Lemma X14_unsubscribe_undoes_subscribe_inmem_witness :
  ∃ subs',
    Inmem.unsubscribe ["threatbus/intel"] 0
      (Inmem.subscribe ["threatbus/intel"] 0 ∅) = Ok subs'
    ∧ (∀ t, subs' !!! t = (∅ : gmap string (gset nat)) !!! t)
    ∧ (∀ q' msg, enqueued q' (Inmem.provision_msg msg subs')
                 = enqueued q' (Inmem.provision_msg msg ∅))
    ∧ ((∀ t, t ∈ ["threatbus/intel"] → t ∈ dom (∅ : gmap string (gset nat))) →
       subs' = ∅).
Proof.
  apply (X14_unsubscribe_undoes_subscribe_inmem ["threatbus/intel"] 0%nat ∅).
  intros t _. rewrite lookup_total_empty. apply not_elem_of_empty.
Defined.

Lemma X18_non_string_topic_ends_manage_witness :
  Zeek.manage (λ k : nat, k) "Tb"
    [Event "Tb::subscribe" [DCount 5; DTimespan 0];
     Event "Tb::subscribe" [DString "threatbus/intel"; DTimespan 0]]
    (Zeek.mkState ∅ 0 0)
  = ([Log Info "Received subscription for topic"], Raise TypeError).
Proof.
  apply (X18_non_string_topic_ends_manage (λ k : nat, k) "Tb" "Tb::subscribe"
           (DCount 5) (DTimespan 0)
           [Event "Tb::subscribe" [DString "threatbus/intel"; DTimespan 0]]
           (Zeek.mkState ∅ 0 0)); [vm_compute; reflexivity | reflexivity |].
  intros s. discriminate.
Defined.

End Instances.

(** ** Acknowledgements and queues of the Zeek plugin *)

Section MoreAcknowledgementFacts.

Variable randbelow : nat → nat.

Local Ltac run_out :=
  cbv [mbind run_mbind bind emit mret run_mret ret lift app].

Lemma manage_subscription_counts ns task st effects st' :
  Zeek.manage_subscription randbelow ns task st = (effects, Ok st') →
  let n := length (acknowledged effects) in
  subscribed_queues effects = seq (Zeek.queues_made st) n
  ∧ Zeek.queues_made st' = (Zeek.queues_made st + n)%nat
  ∧ Zeek.draws_made st' = (Zeek.draws_made st + 10 * n)%nat
  ∧ Forall (ack_shape ns) (acknowledged effects).
Proof.
  destruct task as [s|u|c]; unfold Zeek.manage_subscription.
  - cbv beta iota zeta delta [Zeek.rand_string Zeek.new_queue].
    destruct (sub_topic s) as [| | |topic| | |]; cbn [Zeek.as_str];
      try (rewrite lift_raise_bind; cbv [mbind run_mbind bind emit app];
           discriminate).
    rewrite lift_ok_bind. run_out. intros [= <- <-].
    cbn [acknowledged subscribed_queues omap list_omap length seq
         Zeek.queues_made Zeek.draws_made Zeek.rand_suffix_length].
    change Zeek.rand_suffix_length with 10%nat.
    split_and!; [done | lia | lia |].
    by repeat constructor.
  - destruct (unsub_topic u) as [| | |topic| | |]; cbn [Zeek.as_str];
      try (rewrite lift_raise_bind; cbv [mbind run_mbind bind emit app];
           discriminate).
    rewrite lift_ok_bind.
    destruct (Zeek.subscriptions st !! topic) as [q0|] eqn:Hq0.
    + unfold dict_del. rewrite Hq0. run_out. intros [= <- <-].
      cbn [acknowledged subscribed_queues omap list_omap length seq
           Zeek.queues_made Zeek.draws_made].
      split_and!; [done | lia | lia | constructor].
    + run_out. intros [= <- <-].
      cbn [acknowledged subscribed_queues omap list_omap length seq].
      split_and!; [done | lia | lia | constructor].
  - run_out. intros [= <- <-].
    cbn [acknowledged subscribed_queues omap list_omap length seq].
    split_and!; [done | lia | lia | constructor].
Qed.

(** X20.  In a run of [manage] that does not raise, each
    acknowledgement goes with one new queue: the queues handed to the
    subscribe callback are the next unused ones, one after the other, as
    many as events were published on the endpoint; the plugin has made
    exactly that many queues and ten random draws for each; and every
    event published is [NS::subscription_acknowledged] with one argument,
    on [threatbus/manage]. *)
Theorem X20_one_fresh_queue_per_acknowledgement ns received st effects st' :
  Zeek.manage randbelow ns received st = (effects, Ok st') →
  subscribed_queues effects
  = seq (Zeek.queues_made st) (length (acknowledged effects))
  ∧ Zeek.queues_made st'
    = (Zeek.queues_made st + length (acknowledged effects))%nat
  ∧ Zeek.draws_made st'
    = (Zeek.draws_made st + 10 * length (acknowledged effects))%nat
  ∧ Forall (ack_shape ns) (acknowledged effects).
Proof.
  revert st effects. induction received as [|ev received IH];
    intros st effects.
  - intros [= <- <-]. cbn. split_and!; [done | lia | lia | constructor].
  - cbn [Zeek.manage].
    intros (e1 & st1 & e2 & H1 & H2 & ->)%bind_ok_inv.
    destruct (IH _ _ H2) as (Hq2 & Hm2 & Hd2 & Ha2).
    assert (Hstep : subscribed_queues e1
                    = seq (Zeek.queues_made st) (length (acknowledged e1))
                    ∧ Zeek.queues_made st1
                      = (Zeek.queues_made st + length (acknowledged e1))%nat
                    ∧ Zeek.draws_made st1
                      = (Zeek.draws_made st + 10 * length (acknowledged e1))%nat
                    ∧ Forall (ack_shape ns) (acknowledged e1)).
    { unfold Zeek.manage_event in H1.
      destruct (Mapping.map_management_message ev ns) as [task|].
      - exact (manage_subscription_counts ns task st e1 st1 H1).
      - injection H1 as <- <-. cbn. split_and!; [done | lia | lia | constructor]. }
    destruct Hstep as (Hq1 & Hm1 & Hd1 & Ha1).
    unfold subscribed_queues, acknowledged in *.
    rewrite !omap_app, length_app, seq_app, Hq1, Hq2, Hm1.
    split_and!; [done | lia | lia | by apply Forall_app].
Qed.

End MoreAcknowledgementFacts.

Section AcknowledgementInstance.

Lemma X20_one_fresh_queue_per_acknowledgement_witness :
  subscribed_queues
    [Log Info "Received subscription for topic";
     EpPublish "threatbus/manage"
       (Event "Tb::subscription_acknowledged" [DString "threatbus/intelaaaaaaaaaa"]);
     SubscribeCallback (DString "threatbus/intel") 0 (DTimespan 0)]
  = [0%nat].
Proof.
  refine (proj1 (X20_one_fresh_queue_per_acknowledgement (λ _, 0%nat) "Tb"
            [Event "Tb::subscribe" [DString "threatbus/intel"; DTimespan 0]]
            (Zeek.mkState ∅ 0 0) _
            (Zeek.mkState {["threatbus/intelaaaaaaaaaa" := 0%nat]} 1 10) _)).
  vm_compute. reflexivity.
Defined.

End AcknowledgementInstance.
